(** * LiveCollab: the real-time collaboration room broker

    A shallow embedding of [server/socket-server.js] (the Socket.IO broker),
    [src/lib/socket/events.ts] (the wire types) and [src/hooks/useSocket.ts]
    (the client session adapter), followed by the properties of the
    specification that concern them.

    JavaScript objects with optional fields are records with [option]
    fields; [null]/[undefined] is [None].  The Socket.IO room table
    (a [Map] from room name to a [Set] of socket ids, both iterated in
    insertion order) is a [gmap] from room name to a duplicate-free list.
    Handlers are state-passing functions returning the new state together
    with the messages they emit. *)

From stdpp Require Import gmap strings list fin_maps.

Open Scope string_scope.
Open Scope list_scope.

(** ** Wire types ([src/lib/socket/events.ts]) *)

Module Wire.

(** JavaScript numbers are relayed verbatim by every handler; nothing
    computes with them. *)
Abbreviation number := Z.

(** [new Date().toISOString()] *)
Abbreviation Timestamp := string.

Abbreviation SocketId := string.

(** [interface UserInfo]; the [user-joined]/[user-left] payloads carry a
    [timestamp] instead of a [socketId]. *)
Record UserInfo := {
  userId : string;
  userName : string;
  socketId : option SocketId;
  timestamp : option Timestamp
}.

Record UserMetadata := { full_name : option string }.

(** The [user] field of [interface RoomData]. *)
Record RoomUser := {
  id : string;
  email : string;
  user_metadata : option UserMetadata
}.

Record RoomData := { rd_roomCode : string; rd_user : RoomUser }.

Record PageChangeData := {
  pc_roomCode : string;
  pc_pageNumber : number;
  pc_userId : string
}.

Record Position := { x : number; y : number }.

Record CursorMoveData := {
  cm_roomCode : string;
  cm_position : Position;
  cm_userId : string
}.

Record Comment := {
  c_id : string;
  c_content : string;
  c_pageNumber : number;
  c_position : option Position;
  c_userId : string;
  c_userName : string
}.

Record CommentData := { cd_roomCode : string; cd_comment : Comment }.

(** Events a client sends to the server. *)
Inductive ClientEvent :=
| JoinRoom (data : RoomData)                (* "join-room" *)
| LeaveRoom (roomCode : string)             (* "leave-room" *)
| PageChange (data : PageChangeData)        (* "page-change" *)
| CursorMove (data : CursorMoveData)        (* "cursor-move" *)
| CommentAdded (data : CommentData)         (* "comment-added" *)
| Disconnect (reason : string).             (* transport close *)

(** Events the server sends to a client. *)
Inductive ServerEvent :=
| UserJoined (u : UserInfo)                                   (* "user-joined" *)
| UserLeft (u : UserInfo)                                     (* "user-left" *)
| RoomUsers (users : list UserInfo)                           (* "room-users" *)
| PageChanged (pageNumber : number) (userId : string)
              (ts : Timestamp)                                (* "page-changed" *)
| CursorMoved (position : Position) (userId : string)
              (sid : SocketId) (ts : Timestamp)               (* "cursor-moved" *)
| CommentReceived (comment : Comment) (ts : Timestamp)        (* "comment-received" *)
| Error (message : string).                                   (* "error" *)

#[global] Instance UserInfo_eq_dec : EqDecision UserInfo.
Proof. solve_decision. Defined.
#[global] Instance Position_eq_dec : EqDecision Position.
Proof. solve_decision. Defined.
#[global] Instance Comment_eq_dec : EqDecision Comment.
Proof. solve_decision. Defined.
#[global] Instance ServerEvent_eq_dec : EqDecision ServerEvent.
Proof. solve_decision. Defined.

(** JavaScript truthiness of a string: every string but the empty one. *)
Definition truthy (s : string) : bool := bool_decide (s ≠ "").

(** [user.user_metadata?.full_name || user.email] *)
Definition displayName (u : RoomUser) : string :=
  match user_metadata u with
  | Some md =>
      match full_name md with
      | Some n => if truthy n then n else email u
      | None => email u
      end
  | None => email u
  end.

Definition is_error (ev : ServerEvent) : bool :=
  match ev with Error _ => true | _ => false end.

End Wire.

(** ** The Socket.IO server's room table

    What the handlers rely on from the library: [socket.join(room)] adds
    the socket's id to the room's set, creating the room when absent; a
    new socket is registered under its id and put in a room named by its
    id; [socket.to(room).emit(..)] broadcasts to [room] with the room named
    by the emitting socket's id as the excepted room, so it reaches the
    sockets of [room] that are not in that room (the emitting socket sits
    in it from its handshake to its close); on transport close the socket
    is taken out of every room (a room left empty is deleted) and out of
    the socket table before the ["disconnect"] listeners run. *)

Module SocketIO.
Import Wire.

Abbreviation Room := string.

(** [Set.prototype.add] on an insertion-ordered set. *)
Definition set_add (sid : SocketId) (s : list SocketId) : list SocketId :=
  if bool_decide (sid ∈ s) then s else s ++ [sid].

(** [Set.prototype.delete] *)
Definition set_delete (sid : SocketId) (s : list SocketId) : list SocketId :=
  filter (λ x, x ≠ sid) s.

(** [io.sockets.adapter.rooms.get(room) || []] *)
Definition room_members (rooms : gmap Room (list SocketId)) (room : Room)
  : list SocketId :=
  default [] (rooms !! room).

(** [adapter.addAll(id, {room})] *)
Definition adapter_add (sid : SocketId) (room : Room)
    (rooms : gmap Room (list SocketId)) : gmap Room (list SocketId) :=
  <[room := set_add sid (room_members rooms room)]> rooms.

(** [adapter.delAll(id)]: the id leaves every room holding it and a room
    emptied that way is deleted. *)
Definition adapter_delAll (sid : SocketId)
    (rooms : gmap Room (list SocketId)) : gmap Room (list SocketId) :=
  omap (λ s, if bool_decide (sid ∈ s)
             then match set_delete sid s with
                  | [] => None
                  | s' => Some s'
                  end
             else Some s) rooms.

(** [adapter.broadcast] for [socket.to(room)] of the socket [sender], as
    the library runs it: the ids of [room] are visited in order; an id of
    the excepted room (the one named [sender]) is skipped, and so is an id
    [known] does not find in the socket table. *)
Definition broadcast_targets (rooms : gmap Room (list SocketId))
    (known : SocketId → bool) (sender : SocketId) (room : Room)
  : list SocketId :=
  filter (λ x, (x ∉ room_members rooms sender) ∧ known x = true)
    (room_members rooms room).

(** Recipients of [socket.to(room).emit(..)] for the socket [sender]: the
    sockets of [room], less those of the room named [sender] and less
    [sender] itself.  The room table lists connected sockets only, and a
    connected socket is in the room of its own id; on such tables this is
    [broadcast_targets] (lemma [to_room_broadcast_targets]). *)
Definition to_room (rooms : gmap Room (list SocketId)) (sender : SocketId)
    (room : Room) : list SocketId :=
  filter (λ x, x ≠ sender ∧ x ∉ room_members rooms sender)
    (room_members rooms room).

End SocketIO.

(** ** The broker ([server/socket-server.js]) *)

Module Broker.
Import Wire SocketIO.

(** The two fields the handlers hang on a socket object. *)
Record SocketData := {
  currentRoom : option Room;
  userInfo : option RoomUser
}.

(** [io.sockets.adapter.rooms] and [io.sockets.sockets]. *)
Record State := {
  rooms : gmap Room (list SocketId);
  sockets : gmap SocketId SocketData
}.

Definition init : State := {| rooms := ∅; sockets := ∅ |}.

(** A message put on the channel of one socket. *)
Definition Delivery : Type := SocketId * ServerEvent.

(** [socket.to(room).emit(ev)] *)
Definition emit_to (st : State) (sender : SocketId) (room : Room)
    (ev : ServerEvent) : list Delivery :=
  (λ sid, (sid, ev)) <$> to_room (rooms st) sender room.

(** [io.on("connection", ..)]: the library registers the socket and puts
    it in the room of its own id; the listener itself only logs. *)
Definition on_connection (clientId : SocketId) (st : State) : State :=
  {| rooms := adapter_add clientId clientId (rooms st);
     sockets := <[clientId := {| currentRoom := None; userInfo := None |}]>
                  (sockets st) |}.

(** The [.map(..)] stage of the roster computation: one slot per socket
    id of the room, [None] standing for [null]. *)
Definition roomUsers_mapped (st : State) (roomCode : Room)
  : list (option UserInfo) :=
  (λ socketId,
     match sockets st !! socketId with
     | Some userSocket =>
         match userInfo userSocket with
         | Some ui =>
             Some {| userId := id ui;
                     userName := displayName ui;
                     socketId := Some socketId;
                     timestamp := None |}
         | None => None
         end
     | None => None
     end) <$> room_members (rooms st) roomCode.

(** [.filter(Boolean)] on an array of objects and [null]s. *)
Definition filter_Boolean {A} (l : list (option A)) : list A :=
  omap (λ o, o) l.

Definition roomUsers (st : State) (roomCode : Room) : list UserInfo :=
  filter_Boolean (roomUsers_mapped st roomCode).

(** [socket.on("join-room", ..)] *)
Definition on_join_room (now : Timestamp) (sid : SocketId) (data : RoomData)
    (st : State) : State * list Delivery :=
  let roomCode := rd_roomCode data in
  let user := rd_user data in
  let st' :=
    {| rooms := adapter_add sid roomCode (rooms st);
       sockets := <[sid := {| currentRoom := Some roomCode;
                              userInfo := Some user |}]> (sockets st) |} in
  (st',
   emit_to st' sid roomCode
     (UserJoined {| userId := id user;
                    userName := displayName user;
                    socketId := None;
                    timestamp := Some now |})
   ++ [(sid, RoomUsers (roomUsers st' roomCode))]).

(** [socket.on("page-change", ..)] *)
Definition on_page_change (now : Timestamp) (sid : SocketId)
    (data : PageChangeData) (st : State) : State * list Delivery :=
  (st, emit_to st sid (pc_roomCode data)
         (PageChanged (pc_pageNumber data) (pc_userId data) now)).

(** [socket.on("cursor-move", ..)] *)
Definition on_cursor_move (now : Timestamp) (sid : SocketId)
    (data : CursorMoveData) (st : State) : State * list Delivery :=
  (st, emit_to st sid (cm_roomCode data)
         (CursorMoved (cm_position data) (cm_userId data) sid now)).

(** [socket.on("comment-added", ..)] *)
Definition on_comment_added (now : Timestamp) (sid : SocketId)
    (data : CommentData) (st : State) : State * list Delivery :=
  (st, emit_to st sid (cd_roomCode data)
         (CommentReceived (cd_comment data) now)).

(** [socket.on("disconnect", ..)]: the socket has left its rooms and the
    socket table when the listener reads its two fields. *)
Definition on_disconnect (now : Timestamp) (sid : SocketId) (st : State)
  : State * list Delivery :=
  let st' := {| rooms := adapter_delAll sid (rooms st);
                sockets := delete sid (sockets st) |} in
  (st',
   match sockets st !! sid with
   | Some socket =>
       match currentRoom socket, userInfo socket with
       | Some room, Some ui =>
           if truthy room
           then emit_to st' sid room
                  (UserLeft {| userId := id ui;
                               userName := displayName ui;
                               socketId := None;
                               timestamp := Some now |})
           else []
       | _, _ => []
       end
   | None => []
   end).

(** One inbound event of socket [sid], dispatched to its listener.  No
    listener is registered for ["leave-room"]: the event is discarded. *)
Definition step (now : Timestamp) (sid : SocketId) (ev : ClientEvent)
    (st : State) : State * list Delivery :=
  match ev with
  | JoinRoom data => on_join_room now sid data st
  | LeaveRoom _ => (st, [])
  | PageChange data => on_page_change now sid data st
  | CursorMove data => on_cursor_move now sid data st
  | CommentAdded data => on_comment_added now sid data st
  | Disconnect _ => on_disconnect now sid st
  end.

(** What the server sees over time: a handshake or an event of a
    connected socket, each with the clock reading at that moment. *)
Inductive Input :=
| Connect (sid : SocketId)
| Recv (now : Timestamp) (sid : SocketId) (ev : ClientEvent).

Definition handle (i : Input) (st : State) : State * list Delivery :=
  match i with
  | Connect sid => (on_connection sid st, [])
  | Recv now sid ev => step now sid ev st
  end.

(** Runs the inputs in order, collecting every delivery. *)
Fixpoint run (inputs : list Input) (st : State) : State * list Delivery :=
  match inputs with
  | [] => (st, [])
  | i :: rest =>
      let '(st1, out1) := handle i st in
      let '(st2, out2) := run rest st1 in
      (st2, out1 ++ out2)
  end.

Definition is_member (st : State) (sid : SocketId) (room : Room) : Prop :=
  sid ∈ room_members (rooms st) room.

(** The messages of [out] that reach socket [sid]. *)
Definition inbox (sid : SocketId) (out : list Delivery) : list ServerEvent :=
  snd <$> filter (λ d, d.1 = sid) out.

End Broker.

(** ** The client session adapter ([src/hooks/useSocket.ts]) *)

Module Adapter.
Import Wire.

(** What the hook reads of the signed-in user of [useAuth()]. *)
Record AuthUser := {
  au_id : string;
  au_email : option string;
  au_user_metadata : option UserMetadata
}.

(** The object returned by [io({..})]. *)
Inductive Socket := io.

(** The hook's state: [user] of [useAuth()], the ref and the five
    [useState] cells. *)
Record Hook := {
  user : option AuthUser;
  socketRef : option Socket;
  isConnected : bool;
  isConnecting : bool;
  error : option string;
  currentRoom : option string;
  roomUsers : list UserInfo
}.

Definition initial (u : option AuthUser) : Hook :=
  {| user := u; socketRef := None; isConnected := false;
     isConnecting := false; error := None; currentRoom := None;
     roomUsers := [] |}.

Definition setIsConnected (b : bool) (h : Hook) : Hook :=
  {| user := user h; socketRef := socketRef h; isConnected := b;
     isConnecting := isConnecting h; error := error h;
     currentRoom := currentRoom h; roomUsers := roomUsers h |}.

Definition setIsConnecting (b : bool) (h : Hook) : Hook :=
  {| user := user h; socketRef := socketRef h; isConnected := isConnected h;
     isConnecting := b; error := error h;
     currentRoom := currentRoom h; roomUsers := roomUsers h |}.

Definition setError (e : option string) (h : Hook) : Hook :=
  {| user := user h; socketRef := socketRef h; isConnected := isConnected h;
     isConnecting := isConnecting h; error := e;
     currentRoom := currentRoom h; roomUsers := roomUsers h |}.

Definition setCurrentRoom (r : option string) (h : Hook) : Hook :=
  {| user := user h; socketRef := socketRef h; isConnected := isConnected h;
     isConnecting := isConnecting h; error := error h;
     currentRoom := r; roomUsers := roomUsers h |}.

Definition setRoomUsers (f : list UserInfo → list UserInfo) (h : Hook) : Hook :=
  {| user := user h; socketRef := socketRef h; isConnected := isConnected h;
     isConnecting := isConnecting h; error := error h;
     currentRoom := currentRoom h; roomUsers := f (roomUsers h) |}.

Definition setSocketRef (s : option Socket) (h : Hook) : Hook :=
  {| user := user h; socketRef := s; isConnected := isConnected h;
     isConnecting := isConnecting h; error := error h;
     currentRoom := currentRoom h; roomUsers := roomUsers h |}.

Definition setUser (u : option AuthUser) (h : Hook) : Hook :=
  {| user := u; socketRef := socketRef h; isConnected := isConnected h;
     isConnecting := isConnecting h; error := error h;
     currentRoom := currentRoom h; roomUsers := roomUsers h |}.

(** *** Listeners registered by [initializeSocket] *)

(** [socket.on(SOCKET_EVENTS.CONNECT, ..)] *)
Definition on_connect (h : Hook) : Hook :=
  setError None (setIsConnecting false (setIsConnected true h)).

(** [socket.on(SOCKET_EVENTS.DISCONNECT, ..)] *)
Definition on_disconnect (reason : string) (h : Hook) : Hook :=
  setRoomUsers (λ _, [])
    (setCurrentRoom None (setIsConnecting false (setIsConnected false h))).

(** [socket.on(SOCKET_EVENTS.CONNECT_ERROR, ..)] *)
Definition on_connect_error (h : Hook) : Hook :=
  setError (Some "Failed to connect to collaboration server")
    (setIsConnecting false h).

(** [socket.on(SOCKET_EVENTS.ERROR, ..)] *)
Definition on_error (h : Hook) : Hook :=
  setError (Some "Connection error occurred") h.

(** [socket.on(SOCKET_EVENTS.USER_JOINED, ..)] *)
Definition on_user_joined (u : UserInfo) (h : Hook) : Hook :=
  setRoomUsers (λ prev, filter (λ v, userId v ≠ userId u) prev ++ [u]) h.

(** [socket.on(SOCKET_EVENTS.USER_LEFT, ..)] *)
Definition on_user_left (u : UserInfo) (h : Hook) : Hook :=
  setRoomUsers (λ prev, filter (λ v, userId v ≠ userId u) prev) h.

(** [socket.on(SOCKET_EVENTS.ROOM_USERS, ..)] *)
Definition on_room_users (users : list UserInfo) (h : Hook) : Hook :=
  setRoomUsers (λ _, users) h.

(** An inbound server message, handed to the listener of its name; the
    three relayed kinds only reach callbacks of the component and leave
    the hook's state alone. *)
Definition receive (ev : ServerEvent) (h : Hook) : Hook :=
  match ev with
  | UserJoined u => on_user_joined u h
  | UserLeft u => on_user_left u h
  | RoomUsers users => on_room_users users h
  | Error _ => on_error h
  | PageChanged _ _ _ | CursorMoved _ _ _ _ | CommentReceived _ _ => h
  end.

(** *** Operations; each returns the events it emits on the socket *)

Definition initializeSocket (h : Hook) : Hook :=
  match user h, socketRef h with
  | Some _, None =>
      setSocketRef (Some io) (setError None (setIsConnecting true h))
  | _, _ => h
  end.

Definition cleanup (h : Hook) : Hook * list ClientEvent :=
  let '(h1, out) :=
    match socketRef h with
    | Some _ => (setSocketRef None h, [Disconnect "io client disconnect"])
    | None => (h, [])
    end in
  (setRoomUsers (λ _, []) (setCurrentRoom None (setIsConnected false h1)),
   out).

(** The [useEffect] on [user]: the previous effect's [cleanup] runs, then
    the effect body under the new [user]. *)
Definition auth_change (u : option AuthUser) (h : Hook)
  : Hook * list ClientEvent :=
  let '(h1, out1) := cleanup h in
  let h2 := setUser u h1 in
  match u with
  | Some _ => (initializeSocket h2, out1)
  | None => let '(h3, out3) := cleanup h2 in (h3, out1 ++ out3)
  end.

Definition joinRoom (roomCode : string) (h : Hook)
  : Hook * list ClientEvent :=
  match socketRef h, user h with
  | Some _, Some u =>
      let roomData :=
        {| rd_roomCode := roomCode;
           rd_user := {| id := au_id u;
                         email := default "" (au_email u);
                         user_metadata := au_user_metadata u |} |} in
      (setCurrentRoom (Some roomCode) h, [JoinRoom roomData])
  | _, _ => (h, [])
  end.

(** [leaveRoom] is a [useCallback] over [currentRoom]: the callback made
    by the render that saw [currentRoom = rendered] tests and sends that
    value, whatever the state has become since; the socket is read from
    the ref when the callback is called. *)
Definition leaveRoom_on (rendered : option string) (h : Hook)
  : Hook * list ClientEvent :=
  match socketRef h, rendered with
  | Some _, Some room =>
      if truthy room
      then (setRoomUsers (λ _, []) (setCurrentRoom None h), [LeaveRoom room])
      else (h, [])
  | _, _ => (h, [])
  end.

(** [leaveRoom] of the latest render. *)
Definition leaveRoom (h : Hook) : Hook * list ClientEvent :=
  leaveRoom_on (currentRoom h) h.

Definition emitPageChange (roomCode : string) (pageNumber : number)
    (h : Hook) : Hook * list ClientEvent :=
  match socketRef h, user h with
  | Some _, Some u =>
      (h, [PageChange {| pc_roomCode := roomCode;
                         pc_pageNumber := pageNumber;
                         pc_userId := au_id u |}])
  | _, _ => (h, [])
  end.

Definition emitCursorMove (roomCode : string) (position : Position)
    (h : Hook) : Hook * list ClientEvent :=
  match socketRef h, user h with
  | Some _, Some u =>
      (h, [CursorMove {| cm_roomCode := roomCode;
                         cm_position := position;
                         cm_userId := au_id u |}])
  | _, _ => (h, [])
  end.

Definition emitComment (roomCode : string) (comment : Comment)
    (h : Hook) : Hook * list ClientEvent :=
  match socketRef h with
  | Some _ =>
      (h, [CommentAdded {| cd_roomCode := roomCode;
                           cd_comment := comment |}])
  | None => (h, [])
  end.

Definition clearError (h : Hook) : Hook := setError None h.

(** Everything that can happen to the hook.  [CallLeaveRoom] is a call of
    the latest render's [leaveRoom]; [CallLeaveRoomOf rendered] is a call of
    the [leaveRoom] of an earlier render, as when it is called twice
    before the hook renders again. *)
Inductive Action :=
| AuthChange (u : option AuthUser)
| Unmount
| SocketConnect
| SocketDisconnect (reason : string)
| SocketConnectError
| SocketReceive (ev : ServerEvent)
| CallJoinRoom (roomCode : string)
| CallLeaveRoom
| CallEmitPageChange (roomCode : string) (pageNumber : number)
| CallEmitCursorMove (roomCode : string) (position : Position)
| CallEmitComment (roomCode : string) (comment : Comment)
| CallClearError
| CallLeaveRoomOf (rendered : option string).

Definition act (a : Action) (h : Hook) : Hook * list ClientEvent :=
  match a with
  | AuthChange u => auth_change u h
  | Unmount => cleanup h
  | SocketConnect => (on_connect h, [])
  | SocketDisconnect reason => (on_disconnect reason h, [])
  | SocketConnectError => (on_connect_error h, [])
  | SocketReceive ev => (receive ev h, [])
  | CallJoinRoom roomCode => joinRoom roomCode h
  | CallLeaveRoom => leaveRoom h
  | CallEmitPageChange roomCode pageNumber =>
      emitPageChange roomCode pageNumber h
  | CallEmitCursorMove roomCode position =>
      emitCursorMove roomCode position h
  | CallEmitComment roomCode comment => emitComment roomCode comment h
  | CallClearError => (clearError h, [])
  | CallLeaveRoomOf rendered => leaveRoom_on rendered h
  end.

Fixpoint run (acts : list Action) (h : Hook) : Hook * list ClientEvent :=
  match acts with
  | [] => (h, [])
  | a :: rest =>
      let '(h1, out1) := act a h in
      let '(h2, out2) := run rest h1 in
      (h2, out1 ++ out2)
  end.

Definition is_joinRoom (a : Action) : bool :=
  match a with CallJoinRoom _ => true | _ => false end.

End Adapter.

(** ** The roster computation on payloads as they arrive

    The broker is plain JavaScript: the [join-room] listener stores the
    [user] object of the payload on the socket without looking at it, and
    the roster is computed from the stored objects.  Here the fields the
    listener reads of such an object may be missing ([undefined] or
    [null]), as in a payload [{roomCode, user: {}}]. *)

Module Untyped.
Import Wire SocketIO.

(** A [user] object as it comes off the wire. *)
Record User := {
  id : option string;
  email : option string;
  user_metadata : option UserMetadata
}.

(** An entry of the [room-users] reply. *)
Record Entry := {
  userId : option string;
  userName : option string;
  socketId : SocketId
}.

(** [userInfo.user_metadata?.full_name || userInfo.email] *)
Definition displayName (u : User) : option string :=
  match user_metadata u ≫= full_name with
  | Some n => if truthy n then Some n else email u
  | None => email u
  end.

(** The [.map(..)] stage over the sockets of the room; [userInfo] gives the
    [userInfo] field of each socket of the socket table, [None] when the
    field is unset. *)
Definition roomUsers_mapped (rooms : gmap Room (list SocketId))
    (userInfo : gmap SocketId (option User)) (roomCode : Room)
  : list (option Entry) :=
  (λ socketId,
     match userInfo !! socketId with
     | Some (Some ui) =>
         Some {| userId := id ui;
                 userName := displayName ui;
                 socketId := socketId |}
     | Some None | None => None
     end) <$> room_members rooms roomCode.

Definition roomUsers (rooms : gmap Room (list SocketId))
    (userInfo : gmap SocketId (option User)) (roomCode : Room)
  : list Entry :=
  Broker.filter_Boolean (roomUsers_mapped rooms userInfo roomCode).


(** A well-typed identity, seen as the object it is on the wire. *)
Definition of_typed (u : RoomUser) : User :=
  {| id := Some (Wire.id u);
     email := Some (Wire.email u);
     user_metadata := Wire.user_metadata u |}.

(** The [userInfo] fields of a broker state. *)
Definition userInfo_of (st : Broker.State) : gmap SocketId (option User) :=
  (λ sock, of_typed <$> Broker.userInfo sock) <$> Broker.sockets st.

End Untyped.

(** * Properties *)

Import Wire SocketIO.

(** ** The room table *)

Section RoomTable.
Implicit Types (rooms : gmap Room (list SocketId)) (sid x : SocketId)
               (room : Room) (s : list SocketId).

Lemma elem_of_set_add sid x s : x ∈ set_add sid s ↔ x = sid ∨ x ∈ s.
Proof.
  unfold set_add. case_bool_decide as Hin.
  - split; [by right | by intros [->|?]].
  - rewrite elem_of_app, list_elem_of_singleton. tauto.
Qed.

Lemma elem_of_set_delete sid x s : x ∈ set_delete sid s ↔ x ≠ sid ∧ x ∈ s.
Proof. unfold set_delete. by rewrite list_elem_of_filter. Qed.

Lemma room_members_add_eq sid room rooms :
  room_members (adapter_add sid room rooms) room
  = set_add sid (room_members rooms room).
Proof. unfold adapter_add, room_members at 1. by rewrite lookup_insert_eq. Qed.

Lemma room_members_add_ne sid room room' rooms :
  room ≠ room' →
  room_members (adapter_add sid room rooms) room' = room_members rooms room'.
Proof.
  intros Hne. unfold adapter_add, room_members at 1 3.
  by rewrite lookup_insert_ne.
Qed.

Lemma lookup_add_ne sid room room' rooms :
  room ≠ room' → adapter_add sid room rooms !! room' = rooms !! room'.
Proof. intros Hne. unfold adapter_add. by rewrite lookup_insert_ne. Qed.

(** Joining never takes anybody out of any room. *)
Lemma adapter_add_mono sid room room' x rooms :
  x ∈ room_members rooms room' →
  x ∈ room_members (adapter_add sid room rooms) room'.
Proof.
  intros Hx. destruct (decide (room = room')) as [->|Hne].
  - rewrite room_members_add_eq, elem_of_set_add. by right.
  - by rewrite room_members_add_ne.
Qed.

Lemma elem_of_to_room rooms sender room x :
  x ∈ to_room rooms sender room
  ↔ x ∈ room_members rooms room ∧ x ≠ sender
    ∧ x ∉ room_members rooms sender.
Proof. unfold to_room. rewrite list_elem_of_filter. tauto. Qed.

(** After [delAll] the socket is in no room. *)
Lemma adapter_delAll_not_member sid room rooms :
  sid ∉ room_members (adapter_delAll sid rooms) room.
Proof.
  unfold room_members, adapter_delAll. rewrite lookup_omap.
  destruct (rooms !! room) as [s|]; simpl; [|by apply not_elem_of_nil].
  case_bool_decide as Hin; simpl; [|done].
  destruct (set_delete sid s) as [|y s'] eqn:E; simpl.
  - apply not_elem_of_nil.
  - rewrite <- E, elem_of_set_delete. tauto.
Qed.

(** ... and everybody else stays where they were. *)
Lemma adapter_delAll_other sid room rooms x :
  x ≠ sid →
  x ∈ room_members (adapter_delAll sid rooms) room
  ↔ x ∈ room_members rooms room.
Proof.
  intros Hne. unfold room_members, adapter_delAll. rewrite lookup_omap.
  destruct (rooms !! room) as [s|]; simpl; [|done].
  case_bool_decide as Hin; simpl; [|done].
  destruct (set_delete sid s) as [|y s'] eqn:E; simpl.
  - split; [by intros ?%not_elem_of_nil|].
    intros Hx. assert (x ∈ set_delete sid s) as Hd
      by (by apply elem_of_set_delete).
    by rewrite E in Hd.
  - rewrite <- E, elem_of_set_delete. tauto.
Qed.

End RoomTable.

(** ** Fan-out *)

Section FanOut.
Implicit Types (st : Broker.State) (sid sender : SocketId) (room : Room)
               (ev : ServerEvent) (d : Broker.Delivery).

Lemma elem_of_emit_to st sender room ev d :
  d ∈ Broker.emit_to st sender room ev
  ↔ d.2 = ev ∧ d.1 ∈ room_members (Broker.rooms st) room ∧ d.1 ≠ sender
    ∧ d.1 ∉ room_members (Broker.rooms st) sender.
Proof.
  unfold Broker.emit_to. rewrite list_elem_of_fmap. split.
  - intros (x & -> & Hx%elem_of_to_room). simpl. tauto.
  - intros (Hev & Hin & Hne & Hex). exists d.1. split.
    + destruct d as [a b]. simpl in *. by subst.
    + by apply elem_of_to_room.
Qed.

Lemma emit_to_recipients st sender room ev :
  (Broker.emit_to st sender room ev).*1 = to_room (Broker.rooms st) sender room.
Proof.
  unfold Broker.emit_to. rewrite <- list_fmap_compose.
  by rewrite list_fmap_id.
Qed.

Lemma emit_to_events st sender room ev :
  Forall (λ d, d.2 = ev) (Broker.emit_to st sender room ev).
Proof.
  apply Forall_forall. by intros d (? & _)%elem_of_emit_to.
Qed.

(** The sender finds nothing of its own fan-out in its inbox. *)
Lemma inbox_emit_to_sender st sender room ev :
  Broker.inbox sender (Broker.emit_to st sender room ev) = [].
Proof.
  unfold Broker.inbox, Broker.emit_to, to_room.
  induction (room_members (Broker.rooms st) room) as [|y l IH]; [done|].
  rewrite filter_cons. case_decide as Hy; [|exact IH].
  rewrite fmap_cons, filter_cons. simpl.
  case_decide as Hy'; [by destruct Hy | exact IH].
Qed.

Lemma inbox_app sid (out1 out2 : list Broker.Delivery) :
  Broker.inbox sid (out1 ++ out2)
  = Broker.inbox sid out1 ++ Broker.inbox sid out2.
Proof. unfold Broker.inbox. by rewrite filter_app, fmap_app. Qed.

End FanOut.

(** ** Concrete sessions used as test inputs *)

Module Scenario.

Definition alice : RoomUser :=
  {| id := "user-alice"; email := "alice@example.com";
     user_metadata := Some {| full_name := Some "Alice" |} |}.

Definition bob : RoomUser :=
  {| id := "user-bob"; email := "bob@example.com"; user_metadata := None |}.

Definition join (roomCode : string) (u : RoomUser) : ClientEvent :=
  JoinRoom {| rd_roomCode := roomCode; rd_user := u |}.

(** Two sockets have connected; only [sockB] has joined ["ABC123"]. *)
Definition one_in_room : Broker.State :=
  (Broker.run [Broker.Connect "sockA"; Broker.Connect "sockB";
               Broker.Recv "t1" "sockB" (join "ABC123" bob)] Broker.init).1.

(** Alice on [sockA] and Bob on [sockB] have both joined ["ABC123"]. *)
Definition two_in_room : Broker.State :=
  (Broker.run [Broker.Connect "sockA"; Broker.Connect "sockB";
               Broker.Recv "t1" "sockA" (join "ABC123" alice);
               Broker.Recv "t2" "sockB" (join "ABC123" bob)] Broker.init).1.

(** Alice signed in, connected and in ["ABC123"] on the client side. *)
Definition alice_auth : Adapter.AuthUser :=
  {| Adapter.au_id := "user-alice";
     Adapter.au_email := Some "alice@example.com";
     Adapter.au_user_metadata := Some {| full_name := Some "Alice" |} |}.

Definition alice_connected : Adapter.Hook :=
  (Adapter.run [Adapter.AuthChange (Some alice_auth); Adapter.SocketConnect]
     (Adapter.initial None)).1.

Definition alice_in_room : Adapter.Hook :=
  (Adapter.joinRoom "ABC123" alice_connected).1.

End Scenario.

(** Decides a closed membership, equality or inequality by evaluation. *)
Ltac by_eval := apply (bool_decide_unpack _); vm_compute; exact I.

(** ** Presence: join, leave, disconnect *)

Section Presence.
Implicit Types (st : Broker.State) (sid x : SocketId) (room : Room)
               (now : Timestamp).

(** The broker has no ["leave-room"] listener: the event changes nothing
    and reaches nobody. *)
Lemma leave_room_discarded now sid room st :
  Broker.step now sid (LeaveRoom room) st = (st, []).
Proof. reflexivity. Qed.

(** The transport-close path does take the socket out of every room. *)
Lemma disconnect_removes_member now sid room st :
  ¬ Broker.is_member (Broker.on_disconnect now sid st).1 sid room.
Proof. apply adapter_delAll_not_member. Qed.

(** The transport-close path notifies the remaining members of the
    socket's current room (those that have not joined the room named by
    the closing socket's id). *)
Lemma disconnect_fans_out_user_left now sid room ui st x :
  Broker.sockets st !! sid
    = Some {| Broker.currentRoom := Some room; Broker.userInfo := Some ui |} →
  truthy room = true →
  Broker.is_member st x room → x ≠ sid →
  ¬ Broker.is_member st x sid →
  (x, UserLeft {| userId := id ui; userName := displayName ui;
                  socketId := None; timestamp := Some now |})
    ∈ (Broker.on_disconnect now sid st).2.
Proof.
  intros Hs Ht Hx Hne Hex. unfold Broker.on_disconnect. rewrite Hs. simpl.
  rewrite Ht. apply elem_of_emit_to. simpl. split_and!; [done| |done|].
  - by apply adapter_delAll_other.
  - by rewrite adapter_delAll_other.
Qed.

(** C1 (the code departs from the claim): Alice and Bob are both in room
    ["ABC123"].  Alice's [leaveRoom] emits [leave-room] for that room and
    clears her local room state, yet the broker discards the event: its
    state is unchanged, nobody receives [user-left], Alice's socket is
    still a member of the room, and Bob's next page change is still
    delivered to her. *)
Theorem C1_explicit_leave_is_discarded :
  Adapter.leaveRoom Scenario.alice_in_room
    = (Adapter.setRoomUsers (λ _, [])
         (Adapter.setCurrentRoom None Scenario.alice_in_room),
       [LeaveRoom "ABC123"])
  ∧ Broker.step "t3" "sockA" (LeaveRoom "ABC123") Scenario.two_in_room
    = (Scenario.two_in_room, [])
  ∧ Broker.is_member Scenario.two_in_room "sockA" "ABC123"
  ∧ (Broker.step "t4" "sockB"
       (PageChange {| pc_roomCode := "ABC123"; pc_pageNumber := 7;
                      pc_userId := "user-bob" |})
       Scenario.two_in_room).2
    = [("sockA", PageChanged 7 "user-bob" "t4")].
Proof.
  split_and!.
  - reflexivity.
  - reflexivity.
  - unfold Broker.is_member. by_eval.
  - by vm_compute.
Qed.

Lemma join_is_member now sid data st :
  Broker.is_member (Broker.step now sid (JoinRoom data) st).1 sid
    (rd_roomCode data).
Proof.
  unfold Broker.is_member. simpl.
  rewrite room_members_add_eq, elem_of_set_add. by left.
Qed.

Lemma join_keeps_members now sid data st room x :
  Broker.is_member st x room →
  Broker.is_member (Broker.step now sid (JoinRoom data) st).1 x room.
Proof. unfold Broker.is_member. simpl. apply adapter_add_mono. Qed.

(** C3 (counterexample): a socket that joins ["R1"] and then ["R2"] is a
    member of both rooms. *)
Lemma C3_counterexample :
  let st := (Broker.run [Broker.Connect "sockA";
                         Broker.Recv "t1" "sockA" (Scenario.join "R1" Scenario.alice);
                         Broker.Recv "t2" "sockA" (Scenario.join "R2" Scenario.alice)]
               Broker.init).1 in
  "R1" ≠ "R2"
  ∧ Broker.is_member st "sockA" "R1"
  ∧ Broker.is_member st "sockA" "R2".
Proof. split_and!; [done | unfold Broker.is_member; by_eval ..]. Qed.

(** C3 (amended): a join adds the socket to the requested room and points
    the socket's [currentRoom] field at it, and takes no socket out of
    any room: whoever was a member of a room before the join, the joining
    socket included, is still a member of it afterwards. *)
Theorem C3_join_adds_and_never_removes now sid data st :
  let st' := (Broker.step now sid (JoinRoom data) st).1 in
  Broker.is_member st' sid (rd_roomCode data)
  ∧ Broker.currentRoom <$> (Broker.sockets st' !! sid)
    = Some (Some (rd_roomCode data))
  ∧ ∀ room x, Broker.is_member st x room → Broker.is_member st' x room.
Proof.
  intros st'. split_and!.
  - apply join_is_member.
  - subst st'. simpl. by rewrite lookup_insert_eq.
  - intros room x. apply join_keeps_members.
Qed.

Lemma C3_join_adds_and_never_removes_witness :
  Broker.is_member Scenario.one_in_room "sockB" "ABC123"
  ∧ Broker.is_member
      (Broker.step "t2" "sockB" (Scenario.join "XYZ" Scenario.bob)
         Scenario.one_in_room).1 "sockB" "ABC123".
Proof.
  assert (Broker.is_member Scenario.one_in_room "sockB" "ABC123") as Hm
    by (unfold Broker.is_member; by_eval).
  split; [exact Hm|].
  apply (C3_join_adds_and_never_removes "t2" "sockB"
           {| rd_roomCode := "XYZ"; rd_user := Scenario.bob |}
           Scenario.one_in_room).
  exact Hm.
Defined.

End Presence.

(** ** Routing of page, cursor and comment events *)

(** The room a relayed event names, for the three relayed kinds. *)
Definition routed_roomCode (ev : ClientEvent) : option Room :=
  match ev with
  | PageChange data => Some (pc_roomCode data)
  | CursorMove data => Some (cm_roomCode data)
  | CommentAdded data => Some (cd_roomCode data)
  | JoinRoom _ | LeaveRoom _ | Disconnect _ => None
  end.

Section Routing.
Implicit Types (st : Broker.State) (sid A B : SocketId) (room R : Room)
               (now : Timestamp).

Lemma routed_step now sid ev room st :
  routed_roomCode ev = Some room →
  ∃ payload, Broker.step now sid ev st
             = (st, Broker.emit_to st sid room payload)
             ∧ is_error payload = false.
Proof.
  destruct ev as [| |data|data|data|]; simpl; intros [= <-]; eauto.
Qed.

(** C2 (counterexample): [sockA] has joined no room, [sockB] is alone in
    ["ABC123"].  A page change sent by [sockA] for ["ABC123"] is fanned
    out to [sockB], and [sockA] gets no error. *)
Lemma C2_counterexample :
  let out := (Broker.step "t2" "sockA"
                (PageChange {| pc_roomCode := "ABC123"; pc_pageNumber := 5;
                               pc_userId := "user-alice" |})
                Scenario.one_in_room).2 in
  ¬ Broker.is_member Scenario.one_in_room "sockA" "ABC123"
  ∧ out = [("sockB", PageChanged 5 "user-alice" "t2")]
  ∧ Broker.inbox "sockA" out = [].
Proof.
  split_and!.
  - unfold Broker.is_member. by_eval.
  - by vm_compute.
  - by vm_compute.
Qed.

(** C2 (amended): a relayed event is fanned out to the members of the
    room it names that are neither the sender nor in the room named by the
    sender's socket id, whether or not the sender is a member of the room
    the event names; the broker's state is unchanged and no error event is
    sent to anybody. *)
Theorem C2_route_has_no_membership_check now sid ev room st :
  routed_roomCode ev = Some room →
  (Broker.step now sid ev st).1 = st
  ∧ (∀ B, B ∈ (Broker.step now sid ev st).2.*1
          ↔ Broker.is_member st B room ∧ B ≠ sid
            ∧ ¬ Broker.is_member st B sid)
  ∧ Forall (λ d, is_error d.2 = false) (Broker.step now sid ev st).2.
Proof.
  intros (payload & -> & Hp)%(routed_step now sid _ _ st). simpl.
  split_and!; [done | |].
  - intros B. rewrite emit_to_recipients. apply elem_of_to_room.
  - eapply Forall_impl; [apply emit_to_events|].
    intros d ->. exact Hp.
Qed.

Lemma C2_route_has_no_membership_check_witness :
  let ev := CursorMove {| cm_roomCode := "ABC123";
                          cm_position := {| x := 1; y := 2 |};
                          cm_userId := "user-alice" |} in
  routed_roomCode ev = Some "ABC123"
  ∧ ¬ Broker.is_member Scenario.one_in_room "sockA" "ABC123"
  ∧ "sockB" ∈ (Broker.step "t2" "sockA" ev Scenario.one_in_room).2.*1.
Proof.
  intros ev. split_and!; [reflexivity | unfold Broker.is_member; by_eval |].
  apply (C2_route_has_no_membership_check "t2" "sockA" ev "ABC123"
           Scenario.one_in_room eq_refl).
  unfold Broker.is_member. split_and!; by_eval.
Defined.

(** C4 (counterexample): Alice's socket is bound to the identity
    ["user-alice"]; her page change carrying [userId = "mallory"] reaches
    Bob stamped with ["mallory"]. *)
Lemma C4_counterexample :
  Broker.userInfo <$> (Broker.sockets Scenario.two_in_room !! "sockA")
    = Some (Some Scenario.alice)
  ∧ id Scenario.alice = "user-alice"
  ∧ (Broker.step "t3" "sockA"
       (PageChange {| pc_roomCode := "ABC123"; pc_pageNumber := 5;
                      pc_userId := "mallory" |})
       Scenario.two_in_room).2
    = [("sockB", PageChanged 5 "mallory" "t3")].
Proof. split_and!; by vm_compute. Qed.

(** C4 (amended): every fanned-out event carries the server's clock
    reading; the user id of [page-changed] and [cursor-moved] is the
    [userId] field of the inbound payload ([cursor-moved] also carries the
    sender's socket id) and [comment-received] relays the inbound comment
    as it is.  The identities bound to the sockets play no part: the
    output is the same under any socket table. *)
Theorem C4_origin_is_copied_from_payload now sid st :
  (∀ data,
     Forall (λ d, d.2 = PageChanged (pc_pageNumber data) (pc_userId data) now)
       (Broker.step now sid (PageChange data) st).2)
  ∧ (∀ data,
       Forall (λ d, d.2 = CursorMoved (cm_position data) (cm_userId data)
                            sid now)
         (Broker.step now sid (CursorMove data) st).2)
  ∧ (∀ data,
       Forall (λ d, d.2 = CommentReceived (cd_comment data) now)
         (Broker.step now sid (CommentAdded data) st).2)
  ∧ (∀ socks data,
       (Broker.step now sid (PageChange data)
          {| Broker.rooms := Broker.rooms st; Broker.sockets := socks |}).2
       = (Broker.step now sid (PageChange data) st).2)
  ∧ (∀ socks data,
       (Broker.step now sid (CursorMove data)
          {| Broker.rooms := Broker.rooms st; Broker.sockets := socks |}).2
       = (Broker.step now sid (CursorMove data) st).2)
  ∧ (∀ socks data,
       (Broker.step now sid (CommentAdded data)
          {| Broker.rooms := Broker.rooms st; Broker.sockets := socks |}).2
       = (Broker.step now sid (CommentAdded data) st).2).
Proof.
  split_and!; try (intros data; apply emit_to_events); reflexivity.
Qed.

(** C5 (counterexample): Alice on [sockA] and Bob on [sockB] are both in
    ["ABC123"]; Bob's socket has also joined the room named ["sockA"].
    Alice's page change for ["ABC123"] is delivered to nobody, although
    Bob is another member of that room. *)
Lemma C5_counterexample :
  let st := (Broker.run
               [Broker.Connect "sockA"; Broker.Connect "sockB";
                Broker.Recv "t1" "sockB" (Scenario.join "sockA" Scenario.bob);
                Broker.Recv "t2" "sockA" (Scenario.join "ABC123" Scenario.alice);
                Broker.Recv "t3" "sockB" (Scenario.join "ABC123" Scenario.bob)]
               Broker.init).1 in
  Broker.is_member st "sockA" "ABC123"
  ∧ Broker.is_member st "sockB" "ABC123"
  ∧ "sockB" ≠ "sockA"
  ∧ (Broker.step "t4" "sockA"
       (PageChange {| pc_roomCode := "ABC123"; pc_pageNumber := 5;
                      pc_userId := "user-alice" |}) st).2 = [].
Proof.
  intros st.
  split_and!; [unfold Broker.is_member; by_eval ..| done | by vm_compute].
Qed.

(** C5 (amended): when [A] is a member of room [R] and emits a page change
    for [R], the [page-changed] event, carrying the page number of the
    request, is delivered to every other member of [R] that is not in the
    room named by [A]'s socket id, and to nobody else; nothing at all is
    delivered to [A]. *)
Theorem C5_page_change_reaches_others_only now A R data st :
  Broker.is_member st A R →
  pc_roomCode data = R →
  let out := (Broker.step now A (PageChange data) st).2 in
  (∀ B ev, (B, ev) ∈ out
           ↔ Broker.is_member st B R ∧ B ≠ A ∧ ¬ Broker.is_member st B A
             ∧ ev = PageChanged (pc_pageNumber data) (pc_userId data) now)
  ∧ Broker.inbox A out = [].
Proof.
  intros _ <-. simpl. split.
  - intros B ev. rewrite elem_of_emit_to. unfold Broker.is_member. simpl.
    tauto.
  - apply inbox_emit_to_sender.
Qed.

Lemma C5_page_change_reaches_others_only_witness :
  Broker.is_member Scenario.two_in_room "sockA" "ABC123"
  ∧ ("sockB", PageChanged 5 "user-alice" "t3")
      ∈ (Broker.step "t3" "sockA"
           (PageChange {| pc_roomCode := "ABC123"; pc_pageNumber := 5;
                          pc_userId := "user-alice" |})
           Scenario.two_in_room).2.
Proof.
  assert (Broker.is_member Scenario.two_in_room "sockA" "ABC123") as HA
    by (unfold Broker.is_member; by_eval).
  split; [exact HA|].
  apply (C5_page_change_reaches_others_only "t3" "sockA" "ABC123"
           {| pc_roomCode := "ABC123"; pc_pageNumber := 5;
              pc_userId := "user-alice" |}
           Scenario.two_in_room HA eq_refl).
  unfold Broker.is_member.
  split_and!; [by_eval | by_eval | by_eval | reflexivity].
Defined.

End Routing.

(** ** The roster reply of a join *)

(** The identity bound to a socket, if the socket is known and has one. *)
Definition identity_of (st : Broker.State) (sid : SocketId) : option RoomUser :=
  Broker.sockets st !! sid ≫= Broker.userInfo.

(** The roster entry the broker builds for socket [sid] bound to [ui]. *)
Definition roster_entry (sid : SocketId) (ui : RoomUser) : UserInfo :=
  {| userId := id ui; userName := displayName ui;
     socketId := Some sid; timestamp := None |}.

Section Roster.
Implicit Types (st : Broker.State) (sid m : SocketId) (room : Room)
               (now : Timestamp) (e : UserInfo).


Lemma elem_of_roomUsers st room e :
  e ∈ Broker.roomUsers st room
  ↔ ∃ m ui, m ∈ room_members (Broker.rooms st) room
            ∧ identity_of st m = Some ui ∧ e = roster_entry m ui.
Proof.
  unfold Broker.roomUsers, Broker.filter_Boolean, Broker.roomUsers_mapped.
  rewrite list_elem_of_omap. setoid_rewrite list_elem_of_fmap. split.
  - intros (o & (m & -> & Hm) & Ho). exists m. unfold identity_of.
    destruct (Broker.sockets st !! m) as [sock|]; simpl in *; [|done].
    destruct (Broker.userInfo sock) as [ui|]; [|done].
    exists ui. by simplify_eq.
  - intros (m & ui & Hm & Hid & ->). exists (Some (roster_entry m ui)).
    split; [|done]. exists m. split; [|done].
    unfold identity_of in Hid.
    destruct (Broker.sockets st !! m) as [sock|]; simpl in *; [|done].
    by rewrite Hid.
Qed.

Lemma join_inbox now sid data st :
  Broker.inbox sid (Broker.step now sid (JoinRoom data) st).2
  = [RoomUsers (Broker.roomUsers (Broker.step now sid (JoinRoom data) st).1
                  (rd_roomCode data))].
Proof.
  unfold Broker.step, Broker.on_join_room. cbn [fst snd].
  rewrite inbox_app, inbox_emit_to_sender. unfold Broker.inbox.
  by rewrite filter_cons_True.
Qed.

Lemma join_sends_no_error now sid data st :
  Forall (λ d, is_error d.2 = false)
    (Broker.step now sid (JoinRoom data) st).2.
Proof.
  simpl. apply Forall_app. split.
  - eapply Forall_impl; [apply emit_to_events|]. by intros d ->.
  - by repeat constructor.
Qed.

End Roster.

(** ** The roster on payloads as they arrive *)

Section UntypedRoster.
Implicit Types (st : Broker.State) (sid m : SocketId) (room : Room)
               (e : Untyped.Entry).

Lemma displayName_of_typed (u : RoomUser) :
  Untyped.displayName (Untyped.of_typed u) = Some (displayName u).
Proof.
  unfold Untyped.displayName, displayName. simpl.
  destruct (user_metadata u) as [[[n|]]|]; simpl; try done.
  by destruct (truthy n).
Qed.

(** On the states of the typed broker the roster computed from the stored
    objects is the roster of [Broker.roomUsers], field by field. *)
Lemma untyped_roomUsers_of_typed st room :
  Untyped.roomUsers (Broker.rooms st) (Untyped.userInfo_of st) room
  = (λ u : UserInfo, {| Untyped.userId := Some (userId u);
                        Untyped.userName := Some (userName u);
                        Untyped.socketId := default "" (socketId u) |})
      <$> Broker.roomUsers st room.
Proof.
  unfold Untyped.roomUsers, Broker.roomUsers, Untyped.roomUsers_mapped,
    Broker.roomUsers_mapped, Broker.filter_Boolean, Untyped.userInfo_of.
  induction (room_members (Broker.rooms st) room) as [|m l IH]; [done|].
  rewrite !fmap_cons. simpl. rewrite lookup_fmap.
  destruct (Broker.sockets st !! m) as [sock|]; simpl; [|exact IH].
  destruct (Broker.userInfo sock) as [ui|]; simpl; [|exact IH].
  rewrite displayName_of_typed. by f_equal.
Qed.





End UntypedRoster.

(** ** Room codes and duplicate identities *)

Section Joining.
Implicit Types (st : Broker.State) (sid a b : SocketId) (room : Room)
               (now : Timestamp).

(** C7 (counterexample): a join whose room code is the empty string is
    served like any other: the socket becomes a member of room [""] and
    receives the roster of that room, and no error is sent. *)
Lemma C7_counterexample :
  let st := Broker.on_connection "sockA" Broker.init in
  let res := Broker.step "t1" "sockA" (Scenario.join "" Scenario.alice) st in
  Broker.rooms st !! "" = None
  ∧ Broker.rooms res.1 !! "" = Some ["sockA"]
  ∧ res.2 = [("sockA", RoomUsers [roster_entry "sockA" Scenario.alice])].
Proof. split_and!; by vm_compute. Qed.

(** C7 (amended): every string, the empty one included, is accepted as a
    room code.  The join makes the socket a member of the room with
    exactly the code it sent and leaves every other room's entry as it
    was; the socket is answered with that room's roster and no error
    event is sent to anybody. *)
Theorem C7_join_accepts_any_room_code now sid data st :
  let res := Broker.step now sid (JoinRoom data) st in
  Broker.is_member res.1 sid (rd_roomCode data)
  ∧ (∀ room, room ≠ rd_roomCode data →
             Broker.rooms res.1 !! room = Broker.rooms st !! room)
  ∧ Broker.inbox sid res.2
    = [RoomUsers (Broker.roomUsers res.1 (rd_roomCode data))]
  ∧ Forall (λ d, is_error d.2 = false) res.2.
Proof.
  intros res. split_and!.
  - apply join_is_member.
  - intros room Hne. subst res. simpl. apply lookup_add_ne. congruence.
  - apply join_inbox.
  - apply join_sends_no_error.
Qed.

Lemma C7_join_accepts_any_room_code_witness :
  let st := Broker.on_connection "sockA" Broker.init in
  "sockA" ≠ ""
  ∧ Broker.rooms
      (Broker.step "t1" "sockA" (Scenario.join "" Scenario.alice) st).1
      !! "sockA"
    = Broker.rooms st !! "sockA".
Proof.
  intros st. split; [done|].
  apply (C7_join_accepts_any_room_code "t1" "sockA"
           {| rd_roomCode := ""; rd_user := Scenario.alice |} st).
  done.
Defined.

End Joining.

(** ** One user on two connections *)

Module TwoTabs.

Definition carol : RoomUser :=
  {| id := "user-carol"; email := "carol@example.com";
     user_metadata := None |}.

Definition carol_auth : Adapter.AuthUser :=
  {| Adapter.au_id := "user-carol";
     Adapter.au_email := Some "carol@example.com";
     Adapter.au_user_metadata := None |}.

(** Carol joins ["ABC123"] on [sockC]; Alice then joins it twice, on
    [sockA] and on [sockB]. *)
Definition joined : Broker.State * list Broker.Delivery :=
  Broker.run [Broker.Connect "sockC"; Broker.Connect "sockA";
              Broker.Connect "sockB";
              Broker.Recv "t1" "sockC" (Scenario.join "ABC123" carol);
              Broker.Recv "t2" "sockA" (Scenario.join "ABC123" Scenario.alice);
              Broker.Recv "t3" "sockB" (Scenario.join "ABC123" Scenario.alice)]
    Broker.init.

(** Alice's first connection drops. *)
Definition dropped : Broker.State * list Broker.Delivery :=
  Broker.step "t4" "sockA" (Disconnect "transport close") joined.1.

(** Carol's hook, in the room, before any server message arrives. *)
Definition carol_hook : Adapter.Hook :=
  (Adapter.run [Adapter.AuthChange (Some carol_auth); Adapter.SocketConnect;
                Adapter.CallJoinRoom "ABC123"] (Adapter.initial None)).1.

(** Carol's hook after the messages the broker sent to [sockC]. *)
Definition carol_after_joins : Adapter.Hook :=
  (Adapter.run (Adapter.SocketReceive <$> Broker.inbox "sockC" joined.2)
     carol_hook).1.

Definition carol_after_drop : Adapter.Hook :=
  (Adapter.run (Adapter.SocketReceive <$> Broker.inbox "sockC" dropped.2)
     carol_after_joins).1.

End TwoTabs.

Section DuplicateIdentity.
Implicit Types (st : Broker.State) (sid a b : SocketId) (room : Room)
               (now : Timestamp) (h : Adapter.Hook) (u v : UserInfo).

Lemma filter_same_of_filter_other u (l : list UserInfo) :
  filter (λ v, userId v = userId u) (filter (λ v, userId v ≠ userId u) l)
  = [].
Proof.
  induction l as [|w l IH]; [done|].
  rewrite (filter_cons (λ v, userId v ≠ userId u)).
  case_decide as Hw; [|exact IH].
  rewrite filter_cons. by case_decide.
Qed.

Lemma filter_other_idemp u (l : list UserInfo) :
  filter (λ v, userId v ≠ userId u) (filter (λ v, userId v ≠ userId u) l)
  = filter (λ v, userId v ≠ userId u) l.
Proof.
  induction l as [|w l IH]; [done|].
  rewrite (filter_cons _ w l). case_decide as Hw; [|exact IH].
  rewrite filter_cons. case_decide; [by f_equal | done].
Qed.

(** C6 (counterexample): Alice is in ["ABC123"] on two sockets.  The
    broker's reply to her second join lists both, but Carol's hook, fed
    the two [user-joined] events, holds a single entry for Alice; when one
    of Alice's sockets drops, the [user-left] event leaves Carol's hook
    with no entry for Alice although the other socket is still in the
    room. *)
Lemma C6_counterexample :
  Broker.is_member TwoTabs.joined.1 "sockA" "ABC123"
  ∧ Broker.is_member TwoTabs.joined.1 "sockB" "ABC123"
  ∧ Broker.inbox "sockB" TwoTabs.joined.2
    = [RoomUsers [roster_entry "sockC" TwoTabs.carol;
                  roster_entry "sockA" Scenario.alice;
                  roster_entry "sockB" Scenario.alice]]
  ∧ Adapter.roomUsers TwoTabs.carol_after_joins
    = [roster_entry "sockC" TwoTabs.carol;
       {| userId := "user-alice"; userName := "Alice";
          socketId := None; timestamp := Some "t3" |}]
  ∧ Broker.is_member TwoTabs.dropped.1 "sockB" "ABC123"
  ∧ Adapter.roomUsers TwoTabs.carol_after_drop
    = [roster_entry "sockC" TwoTabs.carol].
Proof.
  split_and!; try (unfold Broker.is_member; by_eval); by vm_compute.
Qed.

(** C6 (amended): the broker's roster has one entry per member socket, so
    two distinct sockets bound to the same user id are two distinct
    entries of the reply.  The client's list is kept per user id: after a
    [user-joined] event it holds exactly one entry with that user id, the
    one just received, the entries of other user ids being untouched; a
    [user-left] event removes every entry with its user id and nothing
    else. *)
Theorem C6_roster_per_socket_client_list_per_user :
  (∀ now sid data st a b ua ub,
     let st' := (Broker.step now sid (JoinRoom data) st).1 in
     let reply := Broker.roomUsers st' (rd_roomCode data) in
     a ≠ b →
     Broker.is_member st' a (rd_roomCode data) →
     Broker.is_member st' b (rd_roomCode data) →
     identity_of st' a = Some ua → identity_of st' b = Some ub →
     id ua = id ub →
     roster_entry a ua ∈ reply ∧ roster_entry b ub ∈ reply
     ∧ roster_entry a ua ≠ roster_entry b ub)
  ∧ (∀ u h,
       let after := Adapter.roomUsers (Adapter.receive (UserJoined u) h) in
       filter (λ v, userId v = userId u) after = [u]
       ∧ filter (λ v, userId v ≠ userId u) after
         = filter (λ v, userId v ≠ userId u) (Adapter.roomUsers h))
  ∧ (∀ u h v,
       v ∈ Adapter.roomUsers (Adapter.receive (UserLeft u) h)
       ↔ v ∈ Adapter.roomUsers h ∧ userId v ≠ userId u).
Proof.
  split_and!.
  - intros now sid data st a b ua ub st' reply Hab Ha Hb Hua Hub _.
    split_and!.
    + apply elem_of_roomUsers. by exists a, ua.
    + apply elem_of_roomUsers. by exists b, ub.
    + intros [= _ _ ?]. done.
  - intros u h. simpl. rewrite !filter_app.
    rewrite filter_same_of_filter_other, filter_other_idemp.
    rewrite !(filter_cons _ u []). repeat case_decide; try done.
    by rewrite !filter_nil, app_nil_r.
  - intros u h v. simpl. rewrite list_elem_of_filter. tauto.
Qed.

Lemma C6_roster_per_socket_client_list_per_user_witness :
  "sockA" ≠ "sockB"
  ∧ Broker.is_member TwoTabs.joined.1 "sockA" "ABC123"
  ∧ Broker.is_member TwoTabs.joined.1 "sockB" "ABC123"
  ∧ identity_of TwoTabs.joined.1 "sockA" = Some Scenario.alice
  ∧ identity_of TwoTabs.joined.1 "sockB" = Some Scenario.alice
  ∧ roster_entry "sockA" Scenario.alice
      ∈ Broker.roomUsers TwoTabs.joined.1 "ABC123"
  ∧ roster_entry "sockB" Scenario.alice
      ∈ Broker.roomUsers TwoTabs.joined.1 "ABC123".
Proof.
  pose (st := (Broker.run [Broker.Connect "sockC"; Broker.Connect "sockA";
                 Broker.Connect "sockB";
                 Broker.Recv "t1" "sockC" (Scenario.join "ABC123" TwoTabs.carol);
                 Broker.Recv "t2" "sockA" (Scenario.join "ABC123" Scenario.alice)]
                 Broker.init).1).
  assert (TwoTabs.joined.1
          = (Broker.step "t3" "sockB"
               (JoinRoom {| rd_roomCode := "ABC123";
                            rd_user := Scenario.alice |}) st).1) as Hst
    by reflexivity.
  assert ("sockA" ≠ "sockB") as Hne by done.
  assert (Broker.is_member TwoTabs.joined.1 "sockA" "ABC123") as Ha
    by (unfold Broker.is_member; by_eval).
  assert (Broker.is_member TwoTabs.joined.1 "sockB" "ABC123") as Hb
    by (unfold Broker.is_member; by_eval).
  assert (identity_of TwoTabs.joined.1 "sockA" = Some Scenario.alice) as Hua
    by (by vm_compute).
  assert (identity_of TwoTabs.joined.1 "sockB" = Some Scenario.alice) as Hub
    by (by vm_compute).
  split_and!; try done.
  - rewrite Hst in *.
    by apply (proj1 C6_roster_per_socket_client_list_per_user
                "t3" "sockB" _ st "sockA" "sockB"
                Scenario.alice Scenario.alice Hne Ha Hb Hua Hub eq_refl).
  - rewrite Hst in *.
    by apply (proj1 C6_roster_per_socket_client_list_per_user
                "t3" "sockB" _ st "sockA" "sockB"
                Scenario.alice Scenario.alice Hne Ha Hb Hua Hub eq_refl).
Defined.

End DuplicateIdentity.

(** ** The client session adapter *)

Section ClientAdapter.
Implicit Types (h : Adapter.Hook) (a : Adapter.Action)
               (acts : list Adapter.Action) (roomCode : string).

(** C8 (counterexample): Alice is signed in and connected but has joined
    no room; each of the three emit operations still puts its event on
    the socket and records no error. *)
Lemma C8_counterexample :
  let h := Scenario.alice_connected in
  let note := {| c_id := "c1"; c_content := "hello"; c_pageNumber := 2;
                 c_position := None; c_userId := "user-alice";
                 c_userName := "Alice" |} in
  Adapter.currentRoom h = None
  ∧ Adapter.emitPageChange "ABC123" 5 h
    = (h, [PageChange {| pc_roomCode := "ABC123"; pc_pageNumber := 5;
                         pc_userId := "user-alice" |}])
  ∧ Adapter.emitCursorMove "ABC123" {| x := 1; y := 2 |} h
    = (h, [CursorMove {| cm_roomCode := "ABC123";
                         cm_position := {| x := 1; y := 2 |};
                         cm_userId := "user-alice" |}])
  ∧ Adapter.emitComment "ABC123" note h
    = (h, [CommentAdded {| cd_roomCode := "ABC123"; cd_comment := note |}])
  ∧ Adapter.error h = None.
Proof. split_and!; reflexivity. Qed.

(** C8 (amended): the three emit operations never look at [currentRoom]
    and never report an error.  They leave the hook's state as it is and
    emit their event whenever the socket exists (for page changes and
    cursor moves: and a user is signed in), whatever [currentRoom] holds;
    they emit nothing when the socket (or that user) is missing. *)
Theorem C8_emit_guards_ignore_currentRoom h roomCode pageNumber position
    comment :
  ((Adapter.emitPageChange roomCode pageNumber h).1 = h
   ∧ (Adapter.emitCursorMove roomCode position h).1 = h
   ∧ (Adapter.emitComment roomCode comment h).1 = h)
  ∧ (∀ room,
       (Adapter.emitPageChange roomCode pageNumber
          (Adapter.setCurrentRoom room h)).2
       = (Adapter.emitPageChange roomCode pageNumber h).2
       ∧ (Adapter.emitCursorMove roomCode position
            (Adapter.setCurrentRoom room h)).2
         = (Adapter.emitCursorMove roomCode position h).2
       ∧ (Adapter.emitComment roomCode comment
            (Adapter.setCurrentRoom room h)).2
         = (Adapter.emitComment roomCode comment h).2)
  ∧ (∀ s u,
       Adapter.socketRef h = Some s → Adapter.user h = Some u →
       (Adapter.emitPageChange roomCode pageNumber h).2
       = [PageChange {| pc_roomCode := roomCode;
                        pc_pageNumber := pageNumber;
                        pc_userId := Adapter.au_id u |}]
       ∧ (Adapter.emitCursorMove roomCode position h).2
         = [CursorMove {| cm_roomCode := roomCode;
                          cm_position := position;
                          cm_userId := Adapter.au_id u |}])
  ∧ (∀ s,
       Adapter.socketRef h = Some s →
       (Adapter.emitComment roomCode comment h).2
       = [CommentAdded {| cd_roomCode := roomCode;
                          cd_comment := comment |}])
  ∧ (Adapter.socketRef h = None ∨ Adapter.user h = None →
     (Adapter.emitPageChange roomCode pageNumber h).2 = []
     ∧ (Adapter.emitCursorMove roomCode position h).2 = [])
  ∧ (Adapter.socketRef h = None →
     (Adapter.emitComment roomCode comment h).2 = []).
Proof.
  unfold Adapter.emitPageChange, Adapter.emitCursorMove,
    Adapter.emitComment.
  split_and!.
  - by destruct (Adapter.socketRef h), (Adapter.user h).
  - by destruct (Adapter.socketRef h), (Adapter.user h).
  - by destruct (Adapter.socketRef h).
  - intros room. simpl.
    by destruct (Adapter.socketRef h), (Adapter.user h).
  - intros s u -> ->. done.
  - intros s ->. done.
  - intros [-> | ->]; [done|]. by destruct (Adapter.socketRef h).
  - by intros ->.
Qed.

Lemma C8_emit_guards_ignore_currentRoom_witness :
  Adapter.socketRef Scenario.alice_connected = Some Adapter.io
  ∧ Adapter.user Scenario.alice_connected = Some Scenario.alice_auth
  ∧ Adapter.currentRoom Scenario.alice_connected = None
  ∧ (Adapter.emitPageChange "ABC123" 5 Scenario.alice_connected).2
    = [PageChange {| pc_roomCode := "ABC123"; pc_pageNumber := 5;
                     pc_userId := "user-alice" |}].
Proof.
  split_and!; [reflexivity | reflexivity | reflexivity |].
  apply (C8_emit_guards_ignore_currentRoom Scenario.alice_connected
           "ABC123" 5 {| x := 0; y := 0 |}
           {| c_id := "c1"; c_content := "hello"; c_pageNumber := 2;
              c_position := None; c_userId := "user-alice";
              c_userName := "Alice" |}
           ) with (s := Adapter.io) (u := Scenario.alice_auth);
    reflexivity.
Defined.

(** Only [joinRoom] ever sets [currentRoom]. *)
Lemma act_keeps_no_room a h :
  Adapter.is_joinRoom a = false →
  Adapter.currentRoom h = None →
  Adapter.currentRoom (Adapter.act a h).1 = None.
Proof.
  intros Ha Hh. destruct a; simpl in *; try done.
  - unfold Adapter.auth_change, Adapter.cleanup, Adapter.initializeSocket.
    destruct (Adapter.socketRef h) eqn:E, u; simpl; rewrite ?E; done.
  - unfold Adapter.cleanup. by destruct (Adapter.socketRef h).
  - by destruct ev.
  - unfold Adapter.leaveRoom, Adapter.leaveRoom_on. rewrite Hh.
    by destruct (Adapter.socketRef h).
  - unfold Adapter.emitPageChange.
    by destruct (Adapter.socketRef h), (Adapter.user h).
  - unfold Adapter.emitCursorMove.
    by destruct (Adapter.socketRef h), (Adapter.user h).
  - unfold Adapter.emitComment. by destruct (Adapter.socketRef h).
  - unfold Adapter.leaveRoom_on.
    destruct (Adapter.socketRef h), rendered as [room|]; try done.
    by destruct (truthy room).
Qed.

Lemma run_keeps_no_room acts : ∀ h,
  forallb (λ a, negb (Adapter.is_joinRoom a)) acts = true →
  Adapter.currentRoom h = None →
  Adapter.currentRoom (Adapter.run acts h).1 = None.
Proof.
  induction acts as [|a acts IH]; intros h Hacts Hh; [done|].
  simpl in Hacts. apply andb_prop in Hacts as [Ha Hacts].
  apply negb_true_iff in Ha. simpl.
  pose proof (act_keeps_no_room a h Ha Hh) as H1.
  destruct (Adapter.act a h) as [h1 out1]. simpl in H1.
  specialize (IH h1 Hacts H1).
  by destruct (Adapter.run acts h1).
Qed.

(** C10: the listener of the transport's [disconnect] event, like
    [cleanup], resets [currentRoom] to [null] and [roomUsers] to the empty
    list; from then on, whatever happens to the hook (reconnection
    included), [currentRoom] stays [null] as long as [joinRoom] is not
    called. *)
Theorem C10_disconnect_clears_room_state reason h acts :
  forallb (λ a, negb (Adapter.is_joinRoom a)) acts = true →
  let h' := (Adapter.act (Adapter.SocketDisconnect reason) h).1 in
  Adapter.currentRoom h' = None
  ∧ Adapter.roomUsers h' = []
  ∧ Adapter.currentRoom (Adapter.cleanup h).1 = None
  ∧ Adapter.roomUsers (Adapter.cleanup h).1 = []
  ∧ Adapter.currentRoom (Adapter.run acts h').1 = None.
Proof.
  intros Hacts h'. split_and!; try done.
  - unfold Adapter.cleanup. by destruct (Adapter.socketRef h).
  - unfold Adapter.cleanup. by destruct (Adapter.socketRef h).
  - by apply run_keeps_no_room.
Qed.

Lemma C10_disconnect_clears_room_state_witness :
  let acts := [Adapter.SocketConnect;
               Adapter.SocketReceive
                 (UserJoined {| userId := "user-bob";
                                userName := "bob@example.com";
                                socketId := None;
                                timestamp := Some "t9" |});
               Adapter.CallEmitPageChange "ABC123" 3;
               Adapter.CallLeaveRoom] in
  let h' := Adapter.on_disconnect "transport close" Scenario.alice_in_room in
  Adapter.currentRoom Scenario.alice_in_room = Some "ABC123"
  ∧ forallb (λ a, negb (Adapter.is_joinRoom a)) acts = true
  ∧ Adapter.currentRoom h' = None
  ∧ Adapter.roomUsers h' = []
  ∧ Adapter.currentRoom (Adapter.run acts h').1 = None.
Proof.
  intros acts h'.
  split_and!; [reflexivity | reflexivity | ..];
    apply (C10_disconnect_clears_room_state "transport close"
             Scenario.alice_in_room acts); reflexivity.
Defined.

End ClientAdapter.

(** * Further properties of the broker *)

(** ** Well-formed broker states *)

(** What every state the broker can reach satisfies: a room is a non-empty
    set; its members are connected sockets; a socket's [currentRoom] names
    a room the socket is in; [currentRoom] and [userInfo] are set
    together. *)
Record wf (st : Broker.State) : Prop := Wf {
  wf_NoDup : ∀ room s, Broker.rooms st !! room = Some s → NoDup s;
  wf_nonempty : ∀ room s, Broker.rooms st !! room = Some s → s ≠ [];
  wf_connected : ∀ room x,
    x ∈ room_members (Broker.rooms st) room →
    is_Some (Broker.sockets st !! x);
  wf_backref : ∀ x sock room,
    Broker.sockets st !! x = Some sock →
    Broker.currentRoom sock = Some room →
    x ∈ room_members (Broker.rooms st) room;
  wf_bound : ∀ x sock,
    Broker.sockets st !! x = Some sock →
    (is_Some (Broker.currentRoom sock) ↔ is_Some (Broker.userInfo sock))
}.

Section WellFormed.
Implicit Types (rooms : gmap Room (list SocketId)) (sid x : SocketId)
               (room : Room) (s : list SocketId) (st : Broker.State).

Lemma NoDup_set_add sid s : NoDup s → NoDup (set_add sid s).
Proof.
  intros Hs. unfold set_add. case_bool_decide as Hin; [done|].
  apply NoDup_app. split_and!; [done | | apply NoDup_singleton].
  intros y Hy ->%list_elem_of_singleton. done.
Qed.

Lemma set_add_nonempty sid s : set_add sid s ≠ [].
Proof.
  unfold set_add. case_bool_decide as Hin.
  - intros ->. by apply not_elem_of_nil in Hin.
  - by destruct s.
Qed.

Lemma set_add_member sid s : sid ∈ s → set_add sid s = s.
Proof. intros Hin. unfold set_add. by rewrite bool_decide_eq_true_2. Qed.

Lemma NoDup_room_members rooms room :
  (∀ s, rooms !! room = Some s → NoDup s) → NoDup (room_members rooms room).
Proof.
  intros H. unfold room_members.
  destruct (rooms !! room) as [s|]; simpl; [by apply H | apply NoDup_nil_2].
Qed.

Lemma lookup_adapter_delAll sid rooms room s' :
  adapter_delAll sid rooms !! room = Some s' →
  ∃ s, rooms !! room = Some s
       ∧ ((sid ∈ s ∧ s' = set_delete sid s ∧ s' ≠ []) ∨ ((sid ∉ s) ∧ s' = s)).
Proof.
  unfold adapter_delAll. rewrite lookup_omap.
  destruct (rooms !! room) as [s|]; simpl; [|done].
  case_bool_decide as Hin; simpl.
  - destruct (set_delete sid s) as [|y t] eqn:E; [done|].
    intros [= <-]. exists s. split; [done|]. left. by rewrite E.
  - intros [= <-]. exists s. split; [done|]. by right.
Qed.

Lemma adapter_delAll_emptied sid rooms room :
  rooms !! room = Some [sid] → adapter_delAll sid rooms !! room = None.
Proof.
  intros H. unfold adapter_delAll. rewrite lookup_omap, H. simpl.
  rewrite bool_decide_eq_true_2 by (apply list_elem_of_singleton; reflexivity).
  unfold set_delete. rewrite filter_cons. by case_decide.
Qed.

Lemma elem_of_delAll sid rooms room x :
  x ∈ room_members (adapter_delAll sid rooms) room
  ↔ x ≠ sid ∧ x ∈ room_members rooms room.
Proof.
  destruct (decide (x = sid)) as [->|Hne].
  - split; [|tauto]. intros H. by apply adapter_delAll_not_member in H.
  - rewrite adapter_delAll_other by done. tauto.
Qed.

Lemma wf_init : wf Broker.init.
Proof.
  split; simpl.
  - intros room s. by rewrite lookup_empty.
  - intros room s. by rewrite lookup_empty.
  - intros room x. unfold room_members. rewrite lookup_empty. simpl.
    by intros ?%not_elem_of_nil.
  - intros x sock room. by rewrite lookup_empty.
  - intros x sock. by rewrite lookup_empty.
Qed.

(** Adding socket [sid] to [room] and giving it the fields [sock] keeps a
    state well formed as long as [sock] does not point at another room. *)
Lemma wf_add sid room sock st :
  wf st →
  (∀ r, Broker.currentRoom sock = Some r → r = room) →
  (is_Some (Broker.currentRoom sock) ↔ is_Some (Broker.userInfo sock)) →
  wf {| Broker.rooms := adapter_add sid room (Broker.rooms st);
        Broker.sockets := <[sid := sock]> (Broker.sockets st) |}.
Proof.
  intros [Hnd Hne Hco Hbr Hbd] Hroom Hboth. split; simpl.
  - intros r s. unfold adapter_add. rewrite lookup_insert_Some.
    intros [[<- <-]|[_ Hs]]; [|by eapply Hnd].
    apply NoDup_set_add, NoDup_room_members, Hnd.
  - intros r s. unfold adapter_add. rewrite lookup_insert_Some.
    intros [[<- <-]|[_ Hs]]; [apply set_add_nonempty | by eapply Hne].
  - intros r x Hx. rewrite lookup_insert_is_Some.
    destruct (decide (sid = x)) as [->|Hsx]; [by left|right].
    split; [done|]. apply (Hco r).
    destruct (decide (room = r)) as [<-|Hr].
    + rewrite room_members_add_eq, elem_of_set_add in Hx.
      by destruct Hx as [->|Hx].
    + by rewrite room_members_add_ne in Hx.
  - intros x sk r. rewrite lookup_insert_Some.
    intros [[<- <-]|[_ Hx]] Hr.
    + apply Hroom in Hr as ->.
      rewrite room_members_add_eq, elem_of_set_add. by left.
    + apply adapter_add_mono. by eapply Hbr.
  - intros x sk. rewrite lookup_insert_Some.
    intros [[<- <-]|[_ Hx]]; [done | by eapply Hbd].
Qed.

Lemma wf_connection sid st : wf st → wf (Broker.on_connection sid st).
Proof.
  intros Hwf. apply wf_add; simpl; [done | done |].
  split; by intros [? ?].
Qed.

Lemma wf_join now sid data st :
  wf st → wf (Broker.on_join_room now sid data st).1.
Proof.
  intros Hwf. apply wf_add; simpl; [done | by intros r [= <-] |].
  split; eauto.
Qed.

Lemma wf_disconnect now sid st :
  wf st → wf (Broker.on_disconnect now sid st).1.
Proof.
  intros [Hnd Hne Hco Hbr Hbd]. split; simpl.
  - intros r s' (s & Hs & [(_ & -> & _)|(_ & ->)])%lookup_adapter_delAll.
    + apply NoDup_filter. by eapply Hnd.
    + by eapply Hnd.
  - intros r s' (s & Hs & [(_ & _ & H)|(_ & ->)])%lookup_adapter_delAll.
    + done.
    + by eapply Hne.
  - intros r x [Hx Hin]%elem_of_delAll.
    rewrite lookup_delete_ne by done. by eapply Hco.
  - intros x sk r [Hx Hsk]%lookup_delete_Some Hr.
    apply elem_of_delAll. split; [done|]. by eapply Hbr.
  - intros x sk [Hx Hsk]%lookup_delete_Some. by eapply Hbd.
Qed.

Lemma wf_step now sid ev st : wf st → wf (Broker.step now sid ev st).1.
Proof.
  intros Hwf. destruct ev; simpl; try done.
  - by apply (wf_join now sid data st).
  - by apply (wf_disconnect now sid st).
Qed.

Lemma wf_handle i st : wf st → wf (Broker.handle i st).1.
Proof.
  intros Hwf. destruct i; simpl; [by apply wf_connection | by apply wf_step].
Qed.

Lemma wf_run inputs : ∀ st, wf st → wf (Broker.run inputs st).1.
Proof.
  induction inputs as [|i inputs IH]; intros st Hwf; [done|].
  simpl. pose proof (wf_handle i st Hwf) as H1.
  destruct (Broker.handle i st) as [st1 out1]. simpl in H1.
  specialize (IH st1 H1). by destruct (Broker.run inputs st1).
Qed.

(** X1: whatever handshakes and events the broker has served since its
    start, its state is well formed: no room is empty or lists a socket
    twice, every member of a room is a connected socket, every socket's
    [currentRoom] names a room the socket is a member of, and a socket has
    [currentRoom] set exactly when it has [userInfo] set. *)
Theorem X1_reachable_states_are_well_formed inputs :
  wf (Broker.run inputs Broker.init).1.
Proof. apply wf_run, wf_init. Qed.

End WellFormed.

(** ** The recipients of a broadcast *)

(** Whether the socket table has a socket of that id. *)
Definition known (st : Broker.State) (x : SocketId) : bool :=
  bool_decide (is_Some (Broker.sockets st !! x)).

(** Histories the transport can produce: a handshake brings a socket id
    that is not in use, and an event comes from a connected socket. *)
Fixpoint valid (inputs : list Broker.Input) (st : Broker.State) : Prop :=
  match inputs with
  | [] => True
  | i :: rest =>
      match i with
      | Broker.Connect sid => Broker.sockets st !! sid = None
      | Broker.Recv _ sid _ => is_Some (Broker.sockets st !! sid)
      end
      ∧ valid rest (Broker.handle i st).1
  end.

(** Every connected socket is in the room of its own id. *)
Definition own_rooms (st : Broker.State) : Prop :=
  ∀ x, is_Some (Broker.sockets st !! x) →
       x ∈ room_members (Broker.rooms st) x.

Section Broadcast.
Implicit Types (st : Broker.State) (sid x sender : SocketId) (room : Room).

Lemma filter_ext_elem {A} (P Q : A → Prop) `{∀ a, Decision (P a)}
    `{∀ a, Decision (Q a)} (l : list A) :
  (∀ a, a ∈ l → (P a ↔ Q a)) → filter P l = filter Q l.
Proof.
  induction l as [|y l IH]; intros Hl; [done|].
  rewrite !filter_cons.
  assert (filter P l = filter Q l) as ->
    by (apply IH; intros a Ha; apply Hl; by right).
  assert (P y ↔ Q y) as Hy by (apply Hl; by left).
  repeat case_decide; tauto.
Qed.

(** On a well-formed table, and for a sender that is in the room of its
    own id or not in the target room at all, the recipients are exactly
    the sockets the library's loop selects. *)
Lemma to_room_broadcast_targets st sender room :
  wf st →
  sender ∈ room_members (Broker.rooms st) sender
  ∨ sender ∉ room_members (Broker.rooms st) room →
  broadcast_targets (Broker.rooms st) (known st) sender room
  = to_room (Broker.rooms st) sender room.
Proof.
  intros Hwf Hsender. unfold broadcast_targets, to_room.
  apply filter_ext_elem. intros x Hx. unfold known.
  rewrite bool_decide_eq_true. split.
  - intros [Hex _]. split; [|done]. intros ->. by destruct Hsender.
  - intros [_ Hex]. split; [done|]. by eapply wf_connected.
Qed.

Lemma own_rooms_handle i st :
  match i with
  | Broker.Connect _ => True
  | Broker.Recv _ sid _ => is_Some (Broker.sockets st !! sid)
  end →
  own_rooms st → own_rooms (Broker.handle i st).1.
Proof.
  intros Hi Hown x. destruct i as [sid|now sid ev]; simpl.
  - rewrite lookup_insert_is_Some. intros [<-|[Hne Hx]].
    + rewrite room_members_add_eq, elem_of_set_add. by left.
    + apply adapter_add_mono. by apply Hown.
  - destruct ev as [data|r|data|data|data|reason]; simpl; try apply Hown.
    + rewrite lookup_insert_is_Some. intros [<-|[Hne Hx]].
      * apply adapter_add_mono. by apply Hown.
      * apply adapter_add_mono. by apply Hown.
    + intros [Hne Hx]%lookup_delete_is_Some.
      apply elem_of_delAll. split; [done|]. by apply Hown.
Qed.

Lemma own_rooms_run inputs : ∀ st,
  valid inputs st → own_rooms st → own_rooms (Broker.run inputs st).1.
Proof.
  induction inputs as [|i inputs IH]; intros st Hv Hown; [done|].
  destruct Hv as [Hi Hv]. simpl.
  assert (own_rooms (Broker.handle i st).1) as H1.
  { apply own_rooms_handle; [by destruct i | done]. }
  destruct (Broker.handle i st) as [st1 out1]. simpl in *.
  specialize (IH st1 Hv H1). by destruct (Broker.run inputs st1).
Qed.

(** After any history the transport can produce, a broadcast of a
    connected socket reaches exactly the sockets the library's loop
    selects, and so does the broadcast of the ["disconnect"] listener of a
    socket that has just been closed. *)
Lemma reachable_broadcast_targets inputs sender room :
  valid inputs Broker.init →
  let st := (Broker.run inputs Broker.init).1 in
  (is_Some (Broker.sockets st !! sender) →
   broadcast_targets (Broker.rooms st) (known st) sender room
   = to_room (Broker.rooms st) sender room)
  ∧ (∀ now, let st' := (Broker.on_disconnect now sender st).1 in
            broadcast_targets (Broker.rooms st') (known st') sender room
            = to_room (Broker.rooms st') sender room).
Proof.
  intros Hv st. assert (wf st) as Hwf by apply wf_run, wf_init. split.
  - intros Hs. apply to_room_broadcast_targets; [done|]. left.
    apply (own_rooms_run inputs Broker.init Hv); [|done].
    intros x. simpl. rewrite lookup_empty. by intros [? ?].
  - intros now st'. apply to_room_broadcast_targets.
    + by apply wf_disconnect.
    + right. apply adapter_delAll_not_member.
Qed.

End Broadcast.

(** ** Presence notifications *)

(** The payload of [user-joined] and [user-left] for identity [ui]. *)
Definition presence_of (ui : RoomUser) (now : Timestamp) : UserInfo :=
  {| userId := id ui; userName := displayName ui;
     socketId := None; timestamp := Some now |}.

Section PresenceNotifications.
Implicit Types (st : Broker.State) (sid x B : SocketId) (room : Room)
               (now : Timestamp) (ev : ServerEvent).

Lemma identity_of_joined now sid data st :
  identity_of (Broker.step now sid (JoinRoom data) st).1 sid
  = Some (rd_user data).
Proof. unfold identity_of. simpl. by rewrite lookup_insert_eq. Qed.

Lemma members_after_join sid roomCode rooms room B :
  B ≠ sid →
  B ∈ room_members (adapter_add sid roomCode rooms) room
  ↔ B ∈ room_members rooms room.
Proof.
  intros HB. destruct (decide (roomCode = room)) as [->|Hne].
  - rewrite room_members_add_eq, elem_of_set_add.
    split; [by intros [?|?] | by right].
  - by rewrite room_members_add_ne.
Qed.

(** Who is sent what by a join, in terms of the room table before it. *)
Lemma join_deliveries now sid data st B ev :
  (B, ev) ∈ (Broker.step now sid (JoinRoom data) st).2
  ↔ (B = sid
     ∧ ev = RoomUsers (Broker.roomUsers
                         (Broker.step now sid (JoinRoom data) st).1
                         (rd_roomCode data)))
    ∨ (B ≠ sid
       ∧ B ∈ room_members (Broker.rooms st) (rd_roomCode data)
       ∧ (B ∉ room_members (Broker.rooms st) sid)
       ∧ ev = UserJoined (presence_of (rd_user data) now)).
Proof.
  unfold Broker.step, Broker.on_join_room. cbn [fst snd].
  rewrite elem_of_app, elem_of_emit_to, list_elem_of_singleton.
  cbn [fst snd Broker.rooms]. unfold presence_of. split.
  - intros [(-> & HB & Hne & Hex)|[= -> ->]]; [right | by left].
    rewrite !members_after_join in HB, Hex by done. done.
  - intros [[-> ->]|(Hne & HB & Hex & ->)]; [by right | left].
    rewrite !members_after_join by done. done.
Qed.

(** X2: a join produces exactly these messages: the roster of the room,
    sent to the joining socket, and one [user-joined] event, carrying the
    joiner's id and display name, to each socket that was a member of the
    room before, is not the joiner and is not in the room named by the
    joiner's socket id.  The roster lists the joiner. *)
Theorem X2_join_notifies_previous_members now sid data st :
  let res := Broker.step now sid (JoinRoom data) st in
  let reply := Broker.roomUsers res.1 (rd_roomCode data) in
  roster_entry sid (rd_user data) ∈ reply
  ∧ ∀ B ev,
      (B, ev) ∈ res.2
      ↔ (B = sid ∧ ev = RoomUsers reply)
        ∨ (B ≠ sid
           ∧ B ∈ room_members (Broker.rooms st) (rd_roomCode data)
           ∧ (B ∉ room_members (Broker.rooms st) sid)
           ∧ ev = UserJoined (presence_of (rd_user data) now)).
Proof.
  intros res reply. split.
  - apply elem_of_roomUsers. exists sid, (rd_user data).
    split_and!; [apply join_is_member | apply identity_of_joined | done].
  - intros B ev. apply join_deliveries.
Qed.

(** X3: the first join to a room nobody is in answers the joiner with a
    roster holding only the joiner, and notifies nobody. *)
Theorem X3_first_join_of_a_room now sid data st :
  Broker.rooms st !! rd_roomCode data = None →
  (Broker.step now sid (JoinRoom data) st).2
  = [(sid, RoomUsers [roster_entry sid (rd_user data)])].
Proof.
  intros Hfresh. unfold Broker.step, Broker.on_join_room. cbn [snd].
  unfold Broker.emit_to, to_room, Broker.roomUsers, Broker.roomUsers_mapped.
  cbn [Broker.rooms Broker.sockets].
  rewrite room_members_add_eq. unfold room_members. rewrite Hfresh. simpl.
  unfold set_add. rewrite bool_decide_eq_false_2 by apply not_elem_of_nil.
  simpl. rewrite filter_cons. case_decide as Hsid; [by destruct Hsid|].
  rewrite filter_nil. simpl. by rewrite lookup_insert_eq.
Qed.

Lemma X3_first_join_of_a_room_witness :
  let st := Broker.on_connection "sockA" Broker.init in
  Broker.rooms st !! "ABC123" = None
  ∧ (Broker.step "t1" "sockA" (Scenario.join "ABC123" Scenario.alice) st).2
    = [("sockA", RoomUsers [roster_entry "sockA" Scenario.alice])].
Proof.
  intros st.
  assert (Broker.rooms st !! "ABC123" = None) as Hfresh by (by vm_compute).
  split; [exact Hfresh|].
  exact (X3_first_join_of_a_room "t1" "sockA"
           {| rd_roomCode := "ABC123"; rd_user := Scenario.alice |} st Hfresh).
Defined.

(** X4: joining again the room a socket has just joined, with the same
    identity, leaves the broker's state as it is and returns the same
    roster; and the members that were sent [user-joined] the first time
    are sent it once more: every other member of the room that is not in
    the room named by the joiner's socket id. *)
Theorem X4_rejoin_keeps_state_and_notifies_again now now' sid data st :
  let first := Broker.step now sid (JoinRoom data) st in
  let second := Broker.step now' sid (JoinRoom data) first.1 in
  second.1 = first.1
  ∧ Broker.inbox sid second.2 = Broker.inbox sid first.2
  ∧ ∀ B ev,
      (B, ev) ∈ second.2
      ↔ (B = sid
         ∧ ev = RoomUsers (Broker.roomUsers first.1 (rd_roomCode data)))
        ∨ (B ≠ sid
           ∧ Broker.is_member first.1 B (rd_roomCode data)
           ∧ ¬ Broker.is_member first.1 B sid
           ∧ ev = UserJoined (presence_of (rd_user data) now')).
Proof.
  intros first second. subst first second.
  assert ((Broker.step now' sid (JoinRoom data)
             (Broker.step now sid (JoinRoom data) st).1).1
          = (Broker.step now sid (JoinRoom data) st).1) as Hst.
  { unfold Broker.step, Broker.on_join_room.
    cbn [fst Broker.rooms Broker.sockets]. f_equal.
    - unfold adapter_add at 1. rewrite room_members_add_eq.
      rewrite set_add_member by (apply elem_of_set_add; by left).
      unfold adapter_add. by rewrite insert_insert_eq.
    - by rewrite insert_insert_eq. }
  split_and!; [exact Hst | |].
  - by rewrite !join_inbox, Hst.
  - intros B ev. rewrite join_deliveries, Hst. done.
Qed.

End PresenceNotifications.

(** ** Transport close *)

Section TransportClose.
Implicit Types (st : Broker.State) (sid x B : SocketId) (room : Room)
               (now : Timestamp) (ev : ServerEvent).

(** X5: when a socket's transport closes, the socket leaves every room
    and the socket table, a room it was alone in is deleted, and nothing
    changes for any other socket: its memberships and its fields are what
    they were.  Nothing is sent to the closed socket. *)
Theorem X5_disconnect_removes_the_socket_only now reason sid st :
  let res := Broker.step now sid (Disconnect reason) st in
  (∀ room, ¬ Broker.is_member res.1 sid room)
  ∧ Broker.sockets res.1 !! sid = None
  ∧ (∀ room, Broker.rooms st !! room = Some [sid] →
             Broker.rooms res.1 !! room = None)
  ∧ (∀ x room, x ≠ sid →
               (Broker.is_member res.1 x room ↔ Broker.is_member st x room))
  ∧ (∀ x, x ≠ sid → Broker.sockets res.1 !! x = Broker.sockets st !! x)
  ∧ Broker.inbox sid res.2 = [].
Proof.
  intros res. subst res. unfold Broker.is_member. simpl. split_and!.
  - intros room. apply adapter_delAll_not_member.
  - apply lookup_delete_eq.
  - intros room. apply adapter_delAll_emptied.
  - intros x room Hx. by apply adapter_delAll_other.
  - intros x Hx. by apply lookup_delete_ne.
  - destruct (Broker.sockets st !! sid) as [sock|]; [|done].
    destruct (Broker.currentRoom sock), (Broker.userInfo sock); try done.
    case_match; [apply inbox_emit_to_sender | done].
Qed.

Lemma X5_disconnect_removes_the_socket_only_witness :
  let res := Broker.step "t3" "sockB" (Disconnect "transport close")
               Scenario.one_in_room in
  Broker.rooms Scenario.one_in_room !! "ABC123" = Some ["sockB"]
  ∧ Broker.rooms res.1 !! "ABC123" = None.
Proof.
  intros res.
  assert (Broker.rooms Scenario.one_in_room !! "ABC123" = Some ["sockB"])
    as Hroom by (by vm_compute).
  split; [exact Hroom|].
  by apply (X5_disconnect_removes_the_socket_only "t3" "transport close"
              "sockB" Scenario.one_in_room).
Defined.

(** X6: when the transport of a socket closes whose [currentRoom] is a
    non-empty room code and whose identity is [ui], the messages sent are
    [user-left] events with [ui]'s id and display name, to every other
    member of that room that is not in the room named by the closed
    socket's id, and to nobody else: members of rooms the socket had
    joined earlier are told nothing unless they are in that room too. *)
Theorem X6_disconnect_notifies_current_room now reason sid room ui st :
  Broker.sockets st !! sid
    = Some {| Broker.currentRoom := Some room; Broker.userInfo := Some ui |} →
  room ≠ "" →
  ∀ B ev,
    (B, ev) ∈ (Broker.step now sid (Disconnect reason) st).2
    ↔ B ≠ sid ∧ Broker.is_member st B room ∧ ¬ Broker.is_member st B sid
      ∧ ev = UserLeft (presence_of ui now).
Proof.
  intros Hs Hroom B ev. simpl. unfold Broker.on_disconnect. rewrite Hs.
  cbn [snd Broker.currentRoom Broker.userInfo].
  unfold truthy. rewrite bool_decide_eq_true_2 by done.
  rewrite elem_of_emit_to. cbn [fst snd Broker.rooms].
  rewrite !elem_of_delAll. unfold Broker.is_member, presence_of. tauto.
Qed.

(** Alice joined ["R1"], where Bob is, and then ["R2"], where Carol is;
    when her socket drops only Carol is told. *)
Lemma X6_disconnect_notifies_current_room_witness :
  let st := (Broker.run
               [Broker.Connect "sockA"; Broker.Connect "sockB";
                Broker.Connect "sockC";
                Broker.Recv "t1" "sockB" (Scenario.join "R1" Scenario.bob);
                Broker.Recv "t2" "sockC" (Scenario.join "R2" TwoTabs.carol);
                Broker.Recv "t3" "sockA" (Scenario.join "R1" Scenario.alice);
                Broker.Recv "t4" "sockA" (Scenario.join "R2" Scenario.alice)]
               Broker.init).1 in
  let out := (Broker.step "t5" "sockA" (Disconnect "transport close") st).2 in
  Broker.sockets st !! "sockA"
    = Some {| Broker.currentRoom := Some "R2";
              Broker.userInfo := Some Scenario.alice |}
  ∧ "R2" ≠ ""
  ∧ Broker.is_member st "sockB" "R1"
  ∧ ("sockC", UserLeft (presence_of Scenario.alice "t5")) ∈ out
  ∧ Broker.inbox "sockB" out = [].
Proof.
  intros st out.
  assert (Broker.sockets st !! "sockA"
          = Some {| Broker.currentRoom := Some "R2";
                    Broker.userInfo := Some Scenario.alice |}) as Hs
    by (by vm_compute).
  assert ("R2" ≠ "") as Hne by done.
  split_and!; [exact Hs | exact Hne | unfold Broker.is_member; by_eval | |].
  - apply (X6_disconnect_notifies_current_room "t5" "transport close"
             "sockA" "R2" Scenario.alice st Hs Hne).
    unfold Broker.is_member. split_and!; [by_eval | by_eval | by_eval | done].
  - by vm_compute.
Defined.

(** X7: a transport close is silent when the socket never joined a room
    (no identity is bound to it), and also when the room it joined last is
    the one named by the empty string. *)
Theorem X7_disconnect_is_silent_without_room now reason sid st :
  identity_of st sid = None
  ∨ (∃ sock, Broker.sockets st !! sid = Some sock
             ∧ Broker.currentRoom sock = Some "") →
  (Broker.step now sid (Disconnect reason) st).2 = [].
Proof.
  simpl. unfold Broker.on_disconnect, identity_of. cbn [snd].
  intros [Hid | (sock & -> & Hroom)].
  - destruct (Broker.sockets st !! sid) as [sock|]; [|done].
    simpl in Hid. rewrite Hid. by destruct (Broker.currentRoom sock).
  - rewrite Hroom. by destruct (Broker.userInfo sock).
Qed.

(** Alice and Bob are both in the room named [""]; Bob hears nothing when
    Alice's socket drops. *)
Lemma X7_disconnect_is_silent_without_room_witness :
  let st := (Broker.run
               [Broker.Connect "sockA"; Broker.Connect "sockB";
                Broker.Recv "t1" "sockB" (Scenario.join "" Scenario.bob);
                Broker.Recv "t2" "sockA" (Scenario.join "" Scenario.alice)]
               Broker.init).1 in
  Broker.is_member st "sockB" ""
  ∧ (Broker.currentRoom <$> Broker.sockets st !! "sockA") = Some (Some "")
  ∧ (Broker.step "t3" "sockA" (Disconnect "transport close") st).2 = [].
Proof.
  intros st.
  split_and!; [unfold Broker.is_member; by_eval | by vm_compute |].
  apply (X7_disconnect_is_silent_without_room "t3" "transport close"
           "sockA" st).
  right. exists {| Broker.currentRoom := Some "";
                   Broker.userInfo := Some Scenario.alice |}.
  split; by vm_compute.
Defined.

End TransportClose.

(** ** What the broker never does *)

Section Never.
Implicit Types (st : Broker.State) (sid x : SocketId) (room : Room)
               (now : Timestamp) (ev : ServerEvent) (i : Broker.Input).

Lemma step_sends_no_error now sid cev st :
  Forall (λ d, is_error d.2 = false) (Broker.step now sid cev st).2.
Proof.
  destruct cev as [data|r|data|data|data|reason].
  - apply join_sends_no_error.
  - constructor.
  - eapply Forall_impl; [apply emit_to_events|]. by intros d ->.
  - eapply Forall_impl; [apply emit_to_events|]. by intros d ->.
  - eapply Forall_impl; [apply emit_to_events|]. by intros d ->.
  - simpl. destruct (Broker.sockets st !! sid) as [sock|]; [|constructor].
    destruct (Broker.currentRoom sock), (Broker.userInfo sock);
      try constructor.
    case_match; [|constructor].
    eapply Forall_impl; [apply emit_to_events|]. by intros d ->.
Qed.

(** X8: the broker never sends an [error] event, whatever it receives and
    whatever state it is in. *)
Theorem X8_broker_never_sends_error inputs : ∀ st,
  Forall (λ d, is_error d.2 = false) (Broker.run inputs st).2.
Proof.
  induction inputs as [|i inputs IH]; intros st; [constructor|].
  simpl. assert (Forall (λ d, is_error d.2 = false) (Broker.handle i st).2)
    as H1 by (destruct i; [constructor | apply step_sends_no_error]).
  destruct (Broker.handle i st) as [st1 out1]. specialize (IH st1).
  destruct (Broker.run inputs st1) as [st2 out2]. simpl in *.
  by apply Forall_app.
Qed.

Lemma emit_to_connected st sender room ev :
  wf st →
  Forall (λ d, is_Some (Broker.sockets st !! d.1))
    (Broker.emit_to st sender room ev).
Proof.
  intros Hwf. apply Forall_forall. intros d (_ & Hd & _)%elem_of_emit_to.
  by eapply wf_connected.
Qed.

Lemma handle_sends_to_connected i st :
  wf st →
  Forall (λ d, is_Some (Broker.sockets (Broker.handle i st).1 !! d.1))
    (Broker.handle i st).2.
Proof.
  intros Hwf. destruct i as [sid|now sid cev]; [constructor|].
  pose proof (wf_step now sid cev st Hwf) as Hwf'.
  destruct cev as [data|r|data|data|data|reason]; simpl in *.
  - apply Forall_app. split; [exact (emit_to_connected _ _ _ _ Hwf')|].
    repeat constructor. simpl. by rewrite lookup_insert_eq.
  - constructor.
  - exact (emit_to_connected _ _ _ _ Hwf).
  - exact (emit_to_connected _ _ _ _ Hwf).
  - exact (emit_to_connected _ _ _ _ Hwf).
  - destruct (Broker.sockets st !! sid) as [sock|]; [|constructor].
    destruct (Broker.currentRoom sock), (Broker.userInfo sock);
      try constructor.
    case_match; [|constructor]. exact (emit_to_connected _ _ _ _ Hwf').
Qed.

(** X9: the broker only ever sends to connected sockets: after any
    history since its start, each message produced by the next handshake
    or event is addressed to a socket that is in the socket table once
    that input has been handled.  In particular nothing is addressed to a
    socket whose transport has closed. *)
Theorem X9_deliveries_go_to_connected_sockets inputs i :
  let st := (Broker.run inputs Broker.init).1 in
  Forall (λ d, is_Some (Broker.sockets (Broker.handle i st).1 !! d.1))
    (Broker.handle i st).2.
Proof. intros st. apply handle_sends_to_connected, wf_run, wf_init. Qed.

(** X10: the display name of an identity is its [full_name] when that is
    present and not the empty string, and its [email] otherwise; it is
    empty only if the email is. *)
Theorem X10_displayName_falls_back_to_email (u : RoomUser) :
  (∀ n, user_metadata u ≫= full_name = Some n → n ≠ "" → displayName u = n)
  ∧ (user_metadata u ≫= full_name = None
     ∨ user_metadata u ≫= full_name = Some "" →
     displayName u = email u)
  ∧ (email u ≠ "" → displayName u ≠ "").
Proof.
  unfold displayName, truthy.
  destruct (user_metadata u) as [[[n|]]|]; simpl.
  - case_bool_decide as Hn.
    + split_and!; [by intros ? [= <-] | by intros [?|[= ?]] | done].
    + split_and!; [by intros ? [= <-] | done | done].
  - split_and!; done.
  - split_and!; done.
Qed.

Lemma X10_displayName_falls_back_to_email_witness :
  let blank := {| id := "user-dan"; email := "dan@example.com";
                  user_metadata := Some {| full_name := Some "" |} |} in
  user_metadata blank ≫= full_name = Some ""
  ∧ displayName blank = "dan@example.com"
  ∧ displayName Scenario.alice = "Alice".
Proof.
  intros blank. split_and!; [reflexivity | |].
  - apply (X10_displayName_falls_back_to_email blank). by right.
  - by apply (X10_displayName_falls_back_to_email Scenario.alice).
Defined.

End Never.

(** * Further properties of the client session adapter *)

Section AdapterLifecycle.
Implicit Types (h : Adapter.Hook) (a : Adapter.Action)
               (acts : list Adapter.Action) (u : option Adapter.AuthUser).









Definition is_authChange a : bool :=
  match a with Adapter.AuthChange _ => true | _ => false end.

Lemma no_socket_act a h :
  is_authChange a = false →
  Adapter.socketRef h = None →
  (Adapter.act a h).2 = [] ∧ Adapter.socketRef (Adapter.act a h).1 = None.
Proof.
  intros Ha Hs.
  destruct a as [u| | |reason| |ev|roomCode| |roomCode n|roomCode p
                |roomCode c| |rendered]; simpl in *; try done.
  - unfold Adapter.cleanup. by rewrite Hs.
  - by destruct ev.
  - unfold Adapter.joinRoom. by rewrite Hs.
  - unfold Adapter.leaveRoom, Adapter.leaveRoom_on. by rewrite Hs.
  - unfold Adapter.emitPageChange. by rewrite Hs.
  - unfold Adapter.emitCursorMove. by rewrite Hs.
  - unfold Adapter.emitComment. by rewrite Hs.
  - unfold Adapter.leaveRoom_on. by rewrite Hs.
Qed.

(** X12: a hook without a socket emits nothing: until the effect on the
    signed-in user runs again, every call ([joinRoom], [leaveRoom], the
    three emits, unmounting) puts no event on the wire and no socket
    appears. *)
Theorem X12_no_socket_no_emit acts : ∀ h,
  forallb (λ a, negb (is_authChange a)) acts = true →
  Adapter.socketRef h = None →
  (Adapter.run acts h).2 = []
  ∧ Adapter.socketRef (Adapter.run acts h).1 = None.
Proof.
  induction acts as [|a acts IH]; intros h Hacts Hs; [done|].
  simpl in Hacts. apply andb_prop in Hacts as [Ha Hacts].
  apply negb_true_iff in Ha. simpl.
  pose proof (no_socket_act a h Ha Hs) as [Hout H1].
  destruct (Adapter.act a h) as [h1 out1]. simpl in *.
  specialize (IH h1 Hacts H1) as [Hout2 H2].
  destruct (Adapter.run acts h1) as [h2 out2]. simpl in *.
  by rewrite Hout, Hout2.
Qed.

Lemma X12_no_socket_no_emit_witness :
  let h := (Adapter.auth_change None Scenario.alice_in_room).1 in
  let acts := [Adapter.CallJoinRoom "ABC123";
               Adapter.CallEmitPageChange "ABC123" 4;
               Adapter.CallLeaveRoom; Adapter.Unmount] in
  Adapter.socketRef h = None
  ∧ (Adapter.run acts h).2 = [].
Proof.
  intros h acts. split; [reflexivity|].
  by apply (X12_no_socket_no_emit acts h).
Defined.

(** X13: tearing the socket down twice is the same as once: [cleanup]
    leaves the hook without socket, room or roster, it emits the
    disconnect only if there was a socket, and a second [cleanup] changes
    nothing and emits nothing. *)
Theorem X13_cleanup_disconnects_once h :
  let once := Adapter.cleanup h in
  Adapter.socketRef once.1 = None
  ∧ Adapter.currentRoom once.1 = None
  ∧ Adapter.roomUsers once.1 = []
  ∧ Adapter.isConnected once.1 = false
  ∧ once.2 = match Adapter.socketRef h with
             | Some _ => [Disconnect "io client disconnect"]
             | None => []
             end
  ∧ Adapter.cleanup once.1 = (once.1, []).
Proof.
  unfold Adapter.cleanup.
  destruct (Adapter.socketRef h) eqn:E; simpl; rewrite ?E; done.
Qed.

(** X14: when the signed-in user changes, the socket of the previous user,
    if there was one, is disconnected, exactly once, and the hook forgets
    its room and roster.  With a new user the hook gets a fresh socket and
    is connecting; without one it has no socket. *)
Theorem X14_auth_change_replaces_the_socket u h :
  let res := Adapter.auth_change u h in
  res.2 = match Adapter.socketRef h with
          | Some _ => [Disconnect "io client disconnect"]
          | None => []
          end
  ∧ Adapter.user res.1 = u
  ∧ Adapter.currentRoom res.1 = None
  ∧ Adapter.roomUsers res.1 = []
  ∧ Adapter.isConnected res.1 = false
  ∧ Adapter.socketRef res.1 = (λ _, Adapter.io) <$> u
  ∧ (is_Some u → Adapter.isConnecting res.1 = true
                 ∧ Adapter.error res.1 = None).
Proof.
  unfold Adapter.auth_change, Adapter.cleanup, Adapter.initializeSocket.
  destruct (Adapter.socketRef h) eqn:E, u; simpl; rewrite ?E; simpl;
    split_and!; try done; by intros [? ?].
Qed.

Lemma X14_auth_change_replaces_the_socket_witness :
  is_Some (Some Scenario.alice_auth)
  ∧ Adapter.isConnecting
      (Adapter.auth_change (Some Scenario.alice_auth)
         (Adapter.initial None)).1 = true.
Proof.
  assert (is_Some (Some Scenario.alice_auth)) as Hu by (by eexists).
  split; [exact Hu|].
  by apply (X14_auth_change_replaces_the_socket (Some Scenario.alice_auth)
              (Adapter.initial None)).
Defined.

(** X15: the [leaveRoom] made by a render tests and sends the
    [currentRoom] that render saw.  With a socket and a non-empty rendered
    room it emits [leave-room] for that room and clears the room and the
    roster; otherwise, in particular when the rendered room is the one
    named by the empty string, it does nothing.  Called twice before the
    hook renders again it emits [leave-room] twice; the [leaveRoom] of the
    render that follows a call of the latest one does nothing. *)
Theorem X15_leaveRoom_per_render rendered h :
  (∀ s room,
     Adapter.socketRef h = Some s → rendered = Some room → room ≠ "" →
     Adapter.leaveRoom_on rendered h
     = (Adapter.setRoomUsers (λ _, []) (Adapter.setCurrentRoom None h),
        [LeaveRoom room]))
  ∧ (Adapter.socketRef h = None ∨ rendered = None ∨ rendered = Some "" →
     Adapter.leaveRoom_on rendered h = (h, []))
  ∧ Adapter.leaveRoom_on rendered (Adapter.leaveRoom_on rendered h).1
    = Adapter.leaveRoom_on rendered h
  ∧ Adapter.leaveRoom (Adapter.leaveRoom h).1 = ((Adapter.leaveRoom h).1, []).
Proof.
  unfold Adapter.leaveRoom, Adapter.leaveRoom_on, truthy. split_and!.
  - intros s room -> -> Hroom. by rewrite bool_decide_eq_true_2.
  - intros [-> | [-> | ->]]; [done | | ]; by destruct (Adapter.socketRef h).
  - destruct (Adapter.socketRef h) eqn:Es, rendered as [room|];
      simpl; rewrite ?Es; try done.
    case_bool_decide as Hroom; simpl; rewrite ?Es; simpl; reflexivity.
  - destruct (Adapter.socketRef h) eqn:Es, (Adapter.currentRoom h) eqn:Er;
      simpl; rewrite ?Es, ?Er; try done.
    case_bool_decide as Hroom; simpl; rewrite ?Es, ?Er; simpl; [done|].
    rewrite bool_decide_eq_false_2; [done|]. intros Hne. by apply Hne.
Qed.

Lemma X15_leaveRoom_per_render_witness :
  let stuck := (Adapter.joinRoom "" Scenario.alice_connected).1 in
  let h := Scenario.alice_in_room in
  Adapter.currentRoom stuck = Some ""
  ∧ Adapter.leaveRoom_on (Adapter.currentRoom stuck) stuck = (stuck, [])
  ∧ Adapter.currentRoom h = Some "ABC123"
  ∧ (Adapter.leaveRoom_on (Some "ABC123") h).2 = [LeaveRoom "ABC123"]
  ∧ (Adapter.leaveRoom_on (Some "ABC123")
       (Adapter.leaveRoom_on (Some "ABC123") h).1).2 = [LeaveRoom "ABC123"].
Proof.
  intros stuck h. split_and!; [reflexivity | | reflexivity | |].
  - apply (proj1 (proj2 (X15_leaveRoom_per_render (Some "") stuck))).
    right. by right.
  - by rewrite (proj1 (X15_leaveRoom_per_render (Some "ABC123") h)
                  Adapter.io "ABC123").
  - rewrite (proj1 (proj2 (proj2 (X15_leaveRoom_per_render
                                    (Some "ABC123") h)))).
    by rewrite (proj1 (X15_leaveRoom_per_render (Some "ABC123") h)
                  Adapter.io "ABC123").
Defined.

End AdapterLifecycle.

(** * The adapter and the broker together *)

Module Link.

(** The hook's socket is socket [sid] of the broker: the hook performs
    [a]; what it emits is handled by the broker, in order, at clock
    reading [now]; what the broker sends to [sid] in return is received by
    the hook, in order.  The result is the hook, the broker state and
    everything the broker sent. *)
Definition exchange (now : Timestamp) (sid : SocketId) (a : Adapter.Action)
    (h : Adapter.Hook) (st : Broker.State)
  : Adapter.Hook * Broker.State * list Broker.Delivery :=
  let '(h1, evs) := Adapter.act a h in
  let '(st1, out) := Broker.run (Broker.Recv now sid <$> evs) st in
  ((Adapter.run (Adapter.SocketReceive <$> Broker.inbox sid out) h1).1,
   st1, out).

End Link.

(** The identity [joinRoom] sends for the signed-in user [u]: a missing
    email becomes the empty string. *)
Definition identity_sent (u : Adapter.AuthUser) : RoomUser :=
  {| id := Adapter.au_id u;
     email := default "" (Adapter.au_email u);
     user_metadata := Adapter.au_user_metadata u |}.

Section EndToEnd.
Implicit Types (h : Adapter.Hook) (st : Broker.State) (sid : SocketId)
               (now : Timestamp) (u : Adapter.AuthUser) (s : Adapter.Socket).

Lemma run_one i st : Broker.run [i] st = Broker.handle i st.
Proof.
  simpl. destruct (Broker.handle i st) as [st1 out1].
  by rewrite app_nil_r.
Qed.

Lemma exchange_join now sid roomCode h st s u :
  Adapter.socketRef h = Some s → Adapter.user h = Some u →
  Link.exchange now sid (Adapter.CallJoinRoom roomCode) h st
  = (Adapter.setRoomUsers
       (λ _, Broker.roomUsers
               (Broker.step now sid
                  (JoinRoom {| rd_roomCode := roomCode;
                               rd_user := identity_sent u |}) st).1
               roomCode)
       (Adapter.setCurrentRoom (Some roomCode) h),
     (Broker.step now sid
        (JoinRoom {| rd_roomCode := roomCode;
                     rd_user := identity_sent u |}) st).1,
     (Broker.step now sid
        (JoinRoom {| rd_roomCode := roomCode;
                     rd_user := identity_sent u |}) st).2).
Proof.
  intros Hs Hu. unfold Link.exchange, Adapter.act, Adapter.joinRoom.
  rewrite Hs, Hu. fold (identity_sent u).
  change (Broker.Recv now sid <$> [?ev]) with [Broker.Recv now sid ev].
  rewrite run_one. cbn [Broker.handle].
  destruct (Broker.step now sid
              (JoinRoom {| rd_roomCode := roomCode;
                           rd_user := identity_sent u |}) st)
    as [st1 out] eqn:E.
  pose proof (join_inbox now sid
                {| rd_roomCode := roomCode; rd_user := identity_sent u |} st)
    as Hin.
  rewrite E in Hin. cbn [fst snd rd_roomCode] in *. rewrite Hin.
  reflexivity.
Qed.

(** X16: a [joinRoom] of a hook that has a socket and a signed-in user,
    carried to the broker and back: the hook's [currentRoom] is the room
    asked for, the broker has the socket as a member of that room, bound
    to the user's id, email (the empty string if the user has none) and
    metadata, and the hook's roster is replaced by the broker's roster of
    the room, which lists the hook's own socket. *)
Theorem X16_joinRoom_round_trip now sid roomCode h st s u :
  Adapter.socketRef h = Some s → Adapter.user h = Some u →
  let res := Link.exchange now sid (Adapter.CallJoinRoom roomCode) h st in
  Adapter.currentRoom res.1.1 = Some roomCode
  ∧ Broker.is_member res.1.2 sid roomCode
  ∧ identity_of res.1.2 sid = Some (identity_sent u)
  ∧ Adapter.roomUsers res.1.1 = Broker.roomUsers res.1.2 roomCode
  ∧ roster_entry sid (identity_sent u) ∈ Adapter.roomUsers res.1.1.
Proof.
  intros Hs Hu res. subst res.
  rewrite (exchange_join now sid roomCode h st s u Hs Hu).
  cbn [fst snd Adapter.currentRoom Adapter.roomUsers Adapter.setRoomUsers
       Adapter.setCurrentRoom].
  split_and!; [done | | | done |].
  - apply (join_is_member now sid
             {| rd_roomCode := roomCode; rd_user := identity_sent u |}).
  - apply identity_of_joined.
  - apply elem_of_roomUsers. exists sid, (identity_sent u). split_and!.
    + apply (join_is_member now sid
               {| rd_roomCode := roomCode; rd_user := identity_sent u |}).
    + apply identity_of_joined.
    + done.
Qed.

Lemma X16_joinRoom_round_trip_witness :
  let res := Link.exchange "t3" "sockA" (Adapter.CallJoinRoom "ABC123")
               Scenario.alice_connected Scenario.one_in_room in
  Adapter.socketRef Scenario.alice_connected = Some Adapter.io
  ∧ Adapter.user Scenario.alice_connected = Some Scenario.alice_auth
  ∧ Adapter.roomUsers res.1.1
    = [roster_entry "sockB" Scenario.bob;
       roster_entry "sockA" Scenario.alice]
  ∧ Adapter.roomUsers res.1.1 = Broker.roomUsers res.1.2 "ABC123".
Proof.
  intros res. split_and!; [reflexivity | reflexivity | by vm_compute |].
  by apply (X16_joinRoom_round_trip "t3" "sockA" "ABC123"
              Scenario.alice_connected Scenario.one_in_room
              Adapter.io Scenario.alice_auth).
Defined.

Lemma exchange_emit now sid a h st ev payload room :
  Adapter.act a h = (h, [ev]) →
  Broker.step now sid ev st = (st, Broker.emit_to st sid room payload) →
  Link.exchange now sid a h st = (h, st, Broker.emit_to st sid room payload).
Proof.
  intros Hact Hstep. unfold Link.exchange. rewrite Hact.
  change (Broker.Recv now sid <$> [ev]) with [Broker.Recv now sid ev].
  rewrite run_one. cbn [Broker.handle]. rewrite Hstep.
  by rewrite inbox_emit_to_sender.
Qed.

(** X17: when a hook has joined a room through [joinRoom] and then calls
    [emitPageChange] or [emitCursorMove], what the broker sends is a
    [page-changed] (a [cursor-moved]) event to every other member of the
    room that is not in the room named by the sender's socket id, and the
    user id stamped on it is the id of the identity the broker has bound
    to the sending socket; neither the hook nor the broker's state
    changes. *)
Theorem X17_adapter_events_carry_bound_identity now now' sid roomCode h st
    s u n p :
  Adapter.socketRef h = Some s → Adapter.user h = Some u →
  let joined := Link.exchange now sid (Adapter.CallJoinRoom roomCode) h st in
  let page := Link.exchange now' sid
                (Adapter.CallEmitPageChange roomCode n)
                joined.1.1 joined.1.2 in
  let cursor := Link.exchange now' sid
                  (Adapter.CallEmitCursorMove roomCode p)
                  joined.1.1 joined.1.2 in
  ∃ ui, identity_of joined.1.2 sid = Some ui
        ∧ page.1 = joined.1
        ∧ (∀ B ev, (B, ev) ∈ page.2
                   ↔ B ≠ sid ∧ Broker.is_member joined.1.2 B roomCode
                     ∧ ¬ Broker.is_member joined.1.2 B sid
                     ∧ ev = PageChanged n (id ui) now')
        ∧ cursor.1 = joined.1
        ∧ (∀ B ev, (B, ev) ∈ cursor.2
                   ↔ B ≠ sid ∧ Broker.is_member joined.1.2 B roomCode
                     ∧ ¬ Broker.is_member joined.1.2 B sid
                     ∧ ev = CursorMoved p (id ui) sid now').
Proof.
  intros Hs Hu joined page cursor. subst page cursor joined.
  rewrite (exchange_join now sid roomCode h st s u Hs Hu).
  cbn [fst snd]. exists (identity_sent u).
  split; [apply identity_of_joined|].
  set (h1 := Adapter.setRoomUsers _ _).
  set (st1 := (Broker.step now sid _ st).1).
  assert (Adapter.socketRef h1 = Some s) as Hs1 by done.
  assert (Adapter.user h1 = Some u) as Hu1 by done.
  rewrite (exchange_emit now' sid (Adapter.CallEmitPageChange roomCode n)
             h1 st1
             (PageChange {| pc_roomCode := roomCode; pc_pageNumber := n;
                            pc_userId := Adapter.au_id u |})
             (PageChanged n (Adapter.au_id u) now') roomCode);
    [|by simpl; unfold Adapter.emitPageChange; rewrite Hs1, Hu1 | done].
  rewrite (exchange_emit now' sid (Adapter.CallEmitCursorMove roomCode p)
             h1 st1
             (CursorMove {| cm_roomCode := roomCode; cm_position := p;
                            cm_userId := Adapter.au_id u |})
             (CursorMoved p (Adapter.au_id u) sid now') roomCode);
    [|by simpl; unfold Adapter.emitCursorMove; rewrite Hs1, Hu1 | done].
  cbn [fst snd]. unfold Broker.is_member.
  split_and!; [done | | done |];
    intros B ev; rewrite elem_of_emit_to; simpl; tauto.
Qed.

Lemma X17_adapter_events_carry_bound_identity_witness :
  let joined := Link.exchange "t3" "sockA" (Adapter.CallJoinRoom "ABC123")
                  Scenario.alice_connected Scenario.one_in_room in
  Adapter.socketRef Scenario.alice_connected = Some Adapter.io
  ∧ Adapter.user Scenario.alice_connected = Some Scenario.alice_auth
  ∧ ("sockB", PageChanged 5 "user-alice" "t4")
      ∈ (Link.exchange "t4" "sockA" (Adapter.CallEmitPageChange "ABC123" 5)
           joined.1.1 joined.1.2).2.
Proof.
  intros joined. split_and!; [reflexivity | reflexivity |].
  destruct (X17_adapter_events_carry_bound_identity "t3" "t4" "sockA"
              "ABC123" Scenario.alice_connected Scenario.one_in_room
              Adapter.io Scenario.alice_auth 5 {| x := 0; y := 0 |}
              eq_refl eq_refl) as (ui & Hui & _ & Hpage & _).
  subst joined. apply Hpage.
  assert (Some ui = Some Scenario.alice) as [= ->]
    by (rewrite <- Hui; by vm_compute).
  unfold Broker.is_member.
  split_and!; [by_eval | by_eval | by_eval | reflexivity].
Defined.

End EndToEnd.

(** * The client's roster under presence events *)

Definition is_roomUsers (ev : ServerEvent) : bool :=
  match ev with RoomUsers _ => true | _ => false end.

Section ClientRoster.
Implicit Types (h : Adapter.Hook) (u v : UserInfo) (l : list UserInfo)
               (evs : list ServerEvent).

Lemma NoDup_userId_filter (P : UserInfo → Prop) `{∀ v, Decision (P v)} l :
  NoDup (userId <$> l) → NoDup (userId <$> filter P l).
Proof.
  induction l as [|w l IH]; [done|].
  rewrite fmap_cons, NoDup_cons. intros [Hw Hl].
  rewrite filter_cons. case_decide; [|by apply IH].
  rewrite fmap_cons, NoDup_cons. split; [|by apply IH].
  intros (v & Hv & [_ Hin]%list_elem_of_filter)%list_elem_of_fmap.
  apply Hw, list_elem_of_fmap. by exists v.
Qed.

Lemma receive_keeps_one_entry_per_user ev h :
  is_roomUsers ev = false →
  NoDup (userId <$> Adapter.roomUsers h) →
  NoDup (userId <$> Adapter.roomUsers (Adapter.receive ev h)).
Proof.
  intros Hev Hh. destruct ev as [u|u|users| | | |]; simpl in *; try done.
  - rewrite fmap_app. apply NoDup_app. split_and!.
    + by apply NoDup_userId_filter.
    + intros i (v & Hi & [Hv _]%list_elem_of_filter)%list_elem_of_fmap.
      simpl. intros Hu%list_elem_of_singleton. congruence.
    + apply NoDup_singleton.
  - by apply NoDup_userId_filter.
Qed.

(** X18: as long as no [room-users] roster arrives, the hook's roster
    never comes to hold two entries with the same user id: if it has at
    most one entry per user id, it still has after any sequence of
    [user-joined], [user-left] and other server events. *)
Theorem X18_presence_keeps_one_entry_per_user evs : ∀ h,
  forallb (λ ev, negb (is_roomUsers ev)) evs = true →
  NoDup (userId <$> Adapter.roomUsers h) →
  NoDup (userId <$> Adapter.roomUsers
                      (Adapter.run (Adapter.SocketReceive <$> evs) h).1).
Proof.
  induction evs as [|ev evs IH]; intros h Hevs Hh; [done|].
  simpl in Hevs. apply andb_prop in Hevs as [Hev Hevs].
  apply negb_true_iff in Hev. rewrite fmap_cons. simpl.
  specialize (IH (Adapter.receive ev h) Hevs
                (receive_keeps_one_entry_per_user ev h Hev Hh)).
  by destruct (Adapter.run (Adapter.SocketReceive <$> evs)
                 (Adapter.receive ev h)).
Qed.

Lemma X18_presence_keeps_one_entry_per_user_witness :
  let evs := [UserJoined (presence_of Scenario.alice "t2");
              UserJoined (presence_of Scenario.bob "t3");
              UserJoined (presence_of Scenario.alice "t4");
              PageChanged 2 "user-bob" "t5";
              UserLeft (presence_of Scenario.bob "t6")] in
  forallb (λ ev, negb (is_roomUsers ev)) evs = true
  ∧ NoDup (userId <$> Adapter.roomUsers Scenario.alice_in_room)
  ∧ NoDup (userId <$> Adapter.roomUsers
                        (Adapter.run (Adapter.SocketReceive <$> evs)
                           Scenario.alice_in_room).1).
Proof.
  intros evs.
  assert (NoDup (userId <$> Adapter.roomUsers Scenario.alice_in_room)) as Hh
    by apply NoDup_nil_2.
  split_and!; [reflexivity | exact Hh |].
  by apply (X18_presence_keeps_one_entry_per_user evs
              Scenario.alice_in_room).
Defined.

End ClientRoster.

(** * Callbacks of the component ([onUserJoined] .. [onCommentReceived]) *)

Module Subscriptions.

(** The five server events a component can subscribe to. *)
Inductive Kind :=
| USER_JOINED | USER_LEFT | PAGE_CHANGED | CURSOR_MOVED | COMMENT_RECEIVED.

#[global] Instance Kind_eq_dec : EqDecision Kind.
Proof. solve_decision. Defined.


(** A callback, known by its identity. *)
Abbreviation Callback := nat.

(** The hook together with the callbacks added to its socket with
    [socket.on], in the order they were added. *)
Record Session := {
  hook : Adapter.Hook;
  callbacks : list (Kind * Callback)
}.

(** [if (!socketRef.current) return; socketRef.current.on(EVENT, callback)] *)
Definition subscribe (k : Kind) (callback : Callback) (s : Session)
  : Session :=
  match Adapter.socketRef (hook s) with
  | Some _ => {| hook := hook s;
                 callbacks := callbacks s ++ [(k, callback)] |}
  | None => s
  end.

Definition onUserJoined := subscribe USER_JOINED.
Definition onUserLeft := subscribe USER_LEFT.
Definition onCursorMoved := subscribe CURSOR_MOVED.
Definition onCommentReceived := subscribe COMMENT_RECEIVED.


(** The effect on the signed-in user: the socket it creates, if any, is a
    new object and carries none of the callbacks of the old one. *)
Definition auth_change (u : option Adapter.AuthUser) (s : Session)
  : Session * list ClientEvent :=
  let '(h, out) := Adapter.auth_change u (hook s) in
  ({| hook := h; callbacks := [] |}, out).

End Subscriptions.

Section Callbacks.
Import Subscriptions.
Implicit Types (s : Session) (k : Kind) (cb : Callback) (ev : ServerEvent).



End Callbacks.
